(** * sciwebvis: the scene graph of [figure.py]

    A shallow embedding of [src/python/sciwebvis/figure.py]: the classes
    [Figure], [Axes], [Scatter] and [Surface], over an explicit store of
    Python objects.  Object identity ([is]) is equality of store locations,
    the dictionaries of a figure are finite maps keyed by strings, and every
    method is a computation that threads the store and may raise.

    Part I holds the embedding and the predicates the statements use, part
    II the lemmas and the theorems. *)

From stdpp Require Import base option list strings gmap fin_maps fin_sets.

Local Open Scope string_scope.
Local Open Scope nat_scope.
#[local] Set Warnings "-clear-no-such-hyp".

(** * Part I: the embedding *)

(** ** Python values and objects *)

Abbreviation loc := nat (only parsing).

(** Immediate (immutable) values, and references to objects of the store. *)
Inductive pyval :=
| VNone
| VInt (z : Z)
| VFloat (mantissa exponent : Z)      (* mantissa * 2^exponent *)
| VStr (s : string)
| VPair (a b : pyval)                 (* a 2-tuple such as (width, height) *)
| VColor (arg : pyval)                (* color.Color(arg), never mutated here *)
| VRef (l : loc).

(** numpy.ndarray: a shape and a flat numeric payload. *)
Record ndarray := NdArray { nd_shape : list nat; nd_data : list Z }.

(** Modelled from the spec: the classes of module [material], which is not
    part of the sources.  A material "has a unique id"; the subclasses
    [PointMaterial] and [WireframeMaterial] are the defaults of [Scatter] and
    [Surface]. *)
Inductive material_class := MaterialBase | PointMaterial | WireframeMaterial.

Record Material := MkMaterial { mat_class : material_class; mat_ID : string }.

(** [Figure.__init__]: the four private attributes. *)
Record Figure := MkFigure {
  fig_ID : pyval;                          (* self.__ID *)
  fig_axes : list loc;                     (* self.__axes *)
  fig_dataDict : gmap string loc;          (* self.__dataDict *)
  fig_materialDict : gmap string loc       (* self.__materialDict *)
}.

(** [Axes.__init__]. *)
Record Axes := MkAxes {
  ax_fig : pyval;                          (* self.__fig *)
  ax_renderObjects : list pyval;           (* self.__renderObjects *)
  ax_properties : gmap string pyval        (* self.__properties *)
}.

(** [Scatter.__init__] and [Surface.__init__] set the same attributes. *)
Record RenderObject := MkRenderObject {
  ro_axes : loc;                           (* self.__axes *)
  ro_dataID : pyval;                       (* self.__dataID *)
  ro_material : pyval                      (* self.__properties['material'] *)
}.

Inductive pyobj :=
| ONdarray (a : ndarray)
| OMaterial (m : Material)
| OFigure (f : Figure)
| OAxes (a : Axes)
| OScatter (r : RenderObject)
| OSurface (r : RenderObject).

(** ** The world: store, UUID source, trace of hook calls *)

Record world := World {
  heap : gmap loc pyobj;
  uuid_calls : nat;                        (* draws made from uuid.uuid4 so far *)
  hook_calls : list (loc * loc)            (* (material, figure) of each addToFigure call *)
}.

Inductive exn :=
| TypeError (msg : string)
| Exception (msg : string).

(** The result of running a method.  [Timeout] is the fuel of a [while] loop
    running out; [Untyped] is a receiver that is not an object of the class
    the method belongs to, which the embedding does not follow. *)
Inductive outcome (A : Type) :=
| Return (a : A) (w : world)
| Raise (e : exn) (w : world)
| Timeout
| Untyped.
Arguments Return {A} a w.
Arguments Raise {A} e w.
Arguments Timeout {A}.
Arguments Untyped {A}.

Definition M (A : Type) : Type := world → outcome A.

Global Instance M_ret : MRet M := λ A a w, Return a w.
Global Instance M_bind : MBind M := λ A B f m w,
  match m w with
  | Return a w' => f a w'
  | Raise e w' => Raise e w'
  | Timeout => Timeout
  | Untyped => Untyped
  end.

Definition raise {A} (e : exn) : M A := λ w, Raise e w.
Definition untyped {A} : M A := λ _, Untyped.

Definition set_heap (h : gmap loc pyobj) (w : world) : world :=
  World h (uuid_calls w) (hook_calls w).

Definition store (l : loc) (o : pyobj) : M unit :=
  λ w, Return () (set_heap (<[l := o]> (heap w)) w).

(** Object creation: a location the store does not use yet. *)
Definition alloc (o : pyobj) : M loc :=
  λ w, let l := fresh (dom (heap w)) in
       Return l (set_heap (<[l := o]> (heap w)) w).

Definition get_Figure (l : loc) : M Figure :=
  λ w, match heap w !! l with Some (OFigure f) => Return f w | _ => Untyped end.

Definition get_Axes (l : loc) : M Axes :=
  λ w, match heap w !! l with Some (OAxes a) => Return a w | _ => Untyped end.

(** [type(v) != np.ndarray], negated. *)
Definition is_ndarray (v : pyval) (w : world) : option loc :=
  match v with
  | VRef l => match heap w !! l with Some (ONdarray _) => Some l | _ => None end
  | _ => None
  end.

(** [isinstance(v, material.Material)]. *)
Definition is_Material (v : pyval) (w : world) : option (loc * Material) :=
  match v with
  | VRef l => match heap w !! l with Some (OMaterial m) => Some (l, m) | _ => None end
  | _ => None
  end.

(** [for d in dict.viewitems(): if d[1] is x: return d[0]].  The items come
    in the order of [map_to_list]; Python fixes none. *)
Fixpoint find_identical (items : list (string * loc)) (x : loc) : option string :=
  match items with
  | [] => None
  | (k, v) :: rest => if decide (v = x) then Some k else find_identical rest x
  end.

(** [dict.has_key(k)]. *)
Definition has_key {V} (d : gmap string V) (k : string) : bool :=
  match d !! k with Some _ => true | None => false end.

(** [dict.pop(k, default)], for its value. *)
Definition pop_default (kwargs : gmap string pyval) (k : string) (dflt : pyval) : pyval :=
  default dflt (kwargs !! k).

(** ** The collaborators

    [uuid.uuid4()] as a sequence of draws, the n-th call returning
    [uuid4 n]; and the collaborators of a render pass: the array encoder
    [numjis.toJson], [Material.render] and the jinja2 templates, each applied
    to the keyword arguments the source gives it. *)

Class UuidSource := { uuid4 : nat → string }.

Class Templates := {
  toJson : ndarray → string;
  Material_render : Material → string;
  js_datasource : gmap string string → string;        (* DATA *)
  js_materials : gmap string string → string;         (* materials *)
  js_figure : pyval → string;                         (* id *)
  js_axes : list string → gmap string pyval → string; (* objects, prop *)
  js_scatter : pyval → string → string;               (* vertex, material *)
  js_surface : pyval → string → string                (* vertex, material *)
}.

Section Model.

Context `{U : UuidSource, T : Templates}.

(** ** The methods of [Figure], [Axes], [Scatter] and [Surface] *)

(** [str(uuid.uuid4())]. *)
Definition str_uuid4 : M string :=
  λ w, Return (uuid4 (uuid_calls w))
              (World (heap w) (S (uuid_calls w)) (hook_calls w)).

(** [while self.__dataDict.has_key(dataUUID): dataUUID = str(uuid.uuid4())]. *)
Fixpoint regenerate (fuel : nat) (d : gmap string loc) (dataUUID : string) : M string :=
  if has_key d dataUUID then
    match fuel with
    | O => λ _, Timeout
    | S fuel' => u ← str_uuid4; regenerate fuel' d u
    end
  else mret dataUUID.

Definition set_dataDict (f : Figure) (d : gmap string loc) : Figure :=
  MkFigure (fig_ID f) (fig_axes f) d (fig_materialDict f).

Definition set_materialDict (f : Figure) (d : gmap string loc) : Figure :=
  MkFigure (fig_ID f) (fig_axes f) (fig_dataDict f) d.

Definition set_axes (f : Figure) (l : list loc) : Figure :=
  MkFigure (fig_ID f) l (fig_dataDict f) (fig_materialDict f).

Definition set_ID (f : Figure) (v : pyval) : Figure :=
  MkFigure v (fig_axes f) (fig_dataDict f) (fig_materialDict f).

(** [Figure.addData] (lines 62-100). *)
Definition Figure_addData (fuel : nat) (self : loc) (data : pyval) : M pyval :=
  λ w,
  match is_ndarray data w with
  | None => Raise (TypeError "Expecting Numpy ndarray object") w
  | Some b =>
      (f ← get_Figure self;
       match find_identical (map_to_list (fig_dataDict f)) b with
       | Some k => mret (VStr k)
       | None =>
           u ← str_uuid4;
           dataUUID ← regenerate fuel (fig_dataDict f) u;
           store self (OFigure (set_dataDict f (<[dataUUID := b]> (fig_dataDict f))));;
           mret (VStr dataUUID)
       end) w
  end.

(** Modelled from the spec: the hook [Material.addToFigure(figure)] of the
    absent module [material] ("wiring it to this Figure").  Its only effect
    followed here is that the call took place. *)
Definition addToFigure (m self : loc) : M unit :=
  λ w, Return () (World (heap w) (uuid_calls w) (hook_calls w ++ [(m, self)])).

(** [Figure.addMaterial] (lines 103-125). *)
Definition Figure_addMaterial (self : loc) (m : pyval) : M pyval :=
  λ w,
  match is_Material m w with
  | None => Raise (TypeError "Expecting Material object") w
  | Some (lm, mat) =>
      (f ← get_Figure self;
       match find_identical (map_to_list (fig_materialDict f)) lm with
       | Some _ => mret (VRef lm)
       | None =>
           addToFigure lm self;;
           f' ← get_Figure self;
           store self (OFigure (set_materialDict f' (<[mat_ID mat := lm]> (fig_materialDict f'))));;
           mret (VRef lm)
       end) w
  end.

(** [Axes.__init__] (lines 197-205); [Color(0.9375)] is 15 * 2^-4. *)
Definition Axes_init (fig : pyval) (kwargs : gmap string pyval) : M loc :=
  let size := pop_default kwargs "size" (VPair (VInt 800) (VInt 800)) in
  let bgcolor := pop_default kwargs "bgcolor" (VColor (VFloat 15 (-4))) in
  alloc (OAxes (MkAxes fig [] (<["bgcolor" := bgcolor]> (<["size" := size]> ∅)))).

(** [Figure.addAxes] (lines 128-134). *)
Definition Figure_addAxes (self : loc) (kwargs : gmap string pyval) : M pyval :=
  ax ← Axes_init (VRef self) kwargs;
  f ← get_Figure self;
  store self (OFigure (set_axes f (fig_axes f ++ [ax])));;
  mret (VRef ax).

(** [Figure.__init__] (lines 24-29). *)
Definition Figure_init : M loc :=
  u ← str_uuid4;
  alloc (OFigure (MkFigure (VStr u) [] ∅ ∅)).

(** The properties of [Figure] (lines 35-55). *)
Definition Figure_get_ID (self : loc) : M pyval :=
  f ← get_Figure self; mret (fig_ID f).

Definition Figure_set_ID (self : loc) (value : pyval) : M unit :=
  f ← get_Figure self; store self (OFigure (set_ID f value)).

Definition Figure_get_data (self : loc) : M (gmap string loc) :=
  f ← get_Figure self; mret (fig_dataDict f).

Definition Figure_set_data (self : loc) (value : pyval) : M unit :=
  raise (Exception "data source dictionary cannot be set").

(** [self.__fig], when it designates a figure. *)
Definition owner (a : Axes) : M loc :=
  match ax_fig a with
  | VRef f => get_Figure f;; mret f
  | _ => untyped
  end.

(** The properties of [Axes] (lines 212-221). *)
Definition Axes_get_data (self : loc) : M (gmap string loc) :=
  a ← get_Axes self; f ← owner a; Figure_get_data f.

Definition Axes_set_data (self : loc) (value : pyval) : M unit :=
  raise (Exception "data source dictionary cannot be set").

(** [Axes.addData] and [Axes.addMaterial] (lines 228-256). *)
Definition Axes_addData (fuel : nat) (self : loc) (data : pyval) : M pyval :=
  a ← get_Axes self; f ← owner a; Figure_addData fuel f data.

Definition Axes_addMaterial (self : loc) (m : pyval) : M pyval :=
  a ← get_Axes self; f ← owner a; Figure_addMaterial f m.

Definition append_renderObject (self : loc) (obj : pyval) : M unit :=
  a ← get_Axes self;
  store self (OAxes (MkAxes (ax_fig a) (ax_renderObjects a ++ [obj]) (ax_properties a))).

(** [Axes.addRenderObject] (lines 259-262). *)
Definition Axes_addRenderObject (self : loc) (obj : pyval) : M pyval :=
  append_renderObject self obj;; mret VNone.

(** Modelled from the spec: the constructors [material.PointMaterial()] and
    [material.WireframeMaterial()] of the absent module [material]; the
    "unique id" of the new material is a draw of the UUID source. *)
Definition Material_init (c : material_class) : M pyval :=
  u ← str_uuid4;
  l ← alloc (OMaterial (MkMaterial c u));
  mret (VRef l).

(** The common body of [Scatter.__init__] (lines 307-320) and
    [Surface.__init__] (lines 334-347), which differ in the class of the
    default material only.  The default is built before [kwargs.pop] looks
    for the key, as Python evaluates arguments first.  The new object enters
    the store when its constructor returns: no reference to it exists
    before. *)
Definition RenderObject_init (c : material_class) (fuel : nat)
    (axes : loc) (vertex : pyval) (kwargs : gmap string pyval) : M RenderObject :=
  dataID ← Axes_addData fuel axes vertex;
  dflt ← Material_init c;
  let material := pop_default kwargs "material" dflt in
  Axes_addMaterial axes material;;
  mret (MkRenderObject axes dataID material).

Definition Scatter_init (fuel : nat) (axes : loc) (vertex : pyval)
    (kwargs : gmap string pyval) : M loc :=
  r ← RenderObject_init PointMaterial fuel axes vertex kwargs; alloc (OScatter r).

Definition Surface_init (fuel : nat) (axes : loc) (vertex : pyval)
    (kwargs : gmap string pyval) : M loc :=
  r ← RenderObject_init WireframeMaterial fuel axes vertex kwargs; alloc (OSurface r).

(** [Axes.scatter] (lines 287-293). *)
Definition Axes_scatter (fuel : nat) (self : loc) (vertex : pyval)
    (kwargs : gmap string pyval) : M pyval :=
  λ w,
  match is_ndarray vertex w with
  | None => Raise (TypeError "Expecting a Numpy NDArray object") w
  | Some _ =>
      (get_Axes self;;
       s ← Scatter_init fuel self vertex kwargs;
       append_renderObject self (VRef s);;
       mret VNone) w
  end.

(** [Axes.surface] (lines 296-302). *)
Definition Axes_surface (fuel : nat) (self : loc) (vertex : pyval)
    (kwargs : gmap string pyval) : M pyval :=
  λ w,
  match is_ndarray vertex w with
  | None => Raise (TypeError "Expecting a Numpy NDArray object") w
  | Some _ =>
      (get_Axes self;;
       s ← Surface_init fuel self vertex kwargs;
       append_renderObject self (VRef s);;
       mret VNone) w
  end.

(** ** Rendering *)

(** [''.join(parts)]. *)
Fixpoint str_join (parts : list string) : string :=
  match parts with
  | [] => ""
  | s :: rest => s ++ str_join rest
  end.

(** [Scatter.render] (lines 323-329) and [Surface.render] (lines 349-355),
    up to the template. *)
Definition RenderObject_render (template : pyval → string → string)
    (w : world) (r : RenderObject) : option string :=
  '(_, m) ← is_Material (ro_material r) w;
  Some (template (ro_dataID r) (mat_ID m)).

(** [obj.render()] for the objects of an axes. *)
Definition render_object (w : world) (obj : pyval) : option string :=
  match obj with
  | VRef l =>
      match heap w !! l with
      | Some (OScatter r) => RenderObject_render js_scatter w r
      | Some (OSurface r) => RenderObject_render js_surface w r
      | _ => None
      end
  | _ => None
  end.

(** [Axes.render] (lines 265-284). *)
Definition Axes_render (w : world) (self : loc) : option string :=
  match heap w !! self with
  | Some (OAxes a) =>
      JSrenderObj ← mapM (render_object w) (ax_renderObjects a);
      Some (str_join [js_axes JSrenderObj (ax_properties a)])
  | _ => None
  end.

(** [for d in items: out[d[0]] = f(d[1])]. *)
Fixpoint render_items (f : loc → option string) (items : list (string * loc))
    (out : gmap string string) : option (gmap string string) :=
  match items with
  | [] => Some out
  | (k, v) :: rest => s ← f v; render_items f rest (<[k := s]> out)
  end.

Definition data_json (w : world) (l : loc) : option string :=
  match heap w !! l with Some (ONdarray a) => Some (toJson a) | _ => None end.

Definition material_js (w : world) (l : loc) : option string :=
  match heap w !! l with Some (OMaterial m) => Some (Material_render m) | _ => None end.

(** The first three fragments of [Figure.render]: data sources, materials,
    figure creation. *)
Definition Figure_render_head (w : world) (f : Figure) : option (list string) :=
  dataDictJson ← render_items (data_json w) (map_to_list (fig_dataDict f)) ∅;
  materialDictJS ← render_items (material_js w) (map_to_list (fig_materialDict f)) ∅;
  Some [js_datasource dataDictJson; js_materials materialDictJS; js_figure (fig_ID f)].

(** [Figure.render] (lines 137-173). *)
Definition Figure_render (w : world) (self : loc) : option string :=
  match heap w !! self with
  | Some (OFigure f) =>
      head ← Figure_render_head w f;
      axesJS ← mapM (Axes_render w) (fig_axes f);
      Some (str_join (head ++ axesJS))
  | _ => None
  end.

(** ** Calls of the interface *)

Inductive call :=
| CFigure_addData (self : loc) (data : pyval)
| CFigure_addMaterial (self : loc) (m : pyval)
| CFigure_addAxes (self : loc) (kwargs : gmap string pyval)
| CFigure_set_ID (self : loc) (value : pyval)
| CFigure_set_data (self : loc) (value : pyval)
| CAxes_set_data (self : loc) (value : pyval)
| CAxes_addData (self : loc) (data : pyval)
| CAxes_addMaterial (self : loc) (m : pyval)
| CAxes_addRenderObject (self : loc) (obj : pyval)
| CAxes_scatter (self : loc) (vertex : pyval) (kwargs : gmap string pyval)
| CAxes_surface (self : loc) (vertex : pyval) (kwargs : gmap string pyval).

Definition exec (fuel : nat) (c : call) : M pyval :=
  match c with
  | CFigure_addData self data => Figure_addData fuel self data
  | CFigure_addMaterial self m => Figure_addMaterial self m
  | CFigure_addAxes self kwargs => Figure_addAxes self kwargs
  | CFigure_set_ID self value => Figure_set_ID self value;; mret VNone
  | CFigure_set_data self value => Figure_set_data self value;; mret VNone
  | CAxes_set_data self value => Axes_set_data self value;; mret VNone
  | CAxes_addData self data => Axes_addData fuel self data
  | CAxes_addMaterial self m => Axes_addMaterial self m
  | CAxes_addRenderObject self obj => Axes_addRenderObject self obj
  | CAxes_scatter self vertex kwargs => Axes_scatter fuel self vertex kwargs
  | CAxes_surface self vertex kwargs => Axes_surface fuel self vertex kwargs
  end.

(** A script: calls run in order until one raises; the values returned. *)
Fixpoint run (fuel : nat) (cs : list call) : M (list pyval) :=
  match cs with
  | [] => mret []
  | c :: rest => v ← exec fuel c; vs ← run fuel rest; mret (v :: vs)
  end.

(** ** Predicates of the statements *)

(** The object [x] is a value of the dictionary. *)

Definition registered (d : gmap string loc) (x : loc) : Prop :=
  ∃ k, d !! k = Some x.

(** The world after a first registration of buffer [b] under key [k]. *)
Definition data_added (self : loc) (f : Figure) (k : string) (b : loc)
    (w w' : world) : Prop :=
  ¬ registered (fig_dataDict f) b ∧ fig_dataDict f !! k = None ∧
  heap w' = <[self := OFigure (set_dataDict f (<[k := b]> (fig_dataDict f)))]> (heap w) ∧
  hook_calls w' = hook_calls w ∧ uuid_calls w < uuid_calls w'.

(** The world after a first registration of material [m]. *)
Definition material_added (self : loc) (f : Figure) (m : loc) (mat : Material)
    (w : world) : world :=
  World (<[self := OFigure (set_materialDict f (<[mat_ID mat := m]> (fig_materialDict f)))]> (heap w))
        (uuid_calls w) (hook_calls w ++ [(m, self)]).

(** The figure [self.__fig] of the axes at [self], with both objects. *)
Definition owner_of (w : world) (self : loc) : option (Axes * loc * Figure) :=
  match heap w !! self with
  | Some (OAxes a) =>
      match ax_fig a with
      | VRef f => match heap w !! f with
                  | Some (OFigure F) => Some (a, f, F)
                  | _ => None
                  end
      | _ => None
      end
  | _ => None
  end.

(** The world once the constructor has registered the vertex buffer (under
    [k], reaching [w1]) and built the default material (at [lm], reaching
    [w2]). *)
Record staged (c : material_class) (fuel : nat) (axes : loc) (vertex : pyval)
    (w : world) (a : Axes) (f : loc) (F : Figure) (k : string)
    (w1 : world) (lm : loc) (w2 : world) : Prop := {
  staged_owner : owner_of w axes = Some (a, f, F);
  staged_data : Figure_addData fuel f vertex w = Return (VStr k) w1;
  staged_fresh : lm = fresh (dom (heap w1));
  staged_w2 : w2 = World (<[lm := OMaterial (MkMaterial c (uuid4 (uuid_calls w1)))]> (heap w1))
                         (S (uuid_calls w1)) (hook_calls w1)
}.

(** [Axes.scatter] and [Axes.surface] are one body, up to the class of the
    default material and of the object built. *)
Definition Axes_plot (c : material_class) (mk : RenderObject → pyobj) (fuel : nat)
    (self : loc) (vertex : pyval) (kwargs : gmap string pyval) : M pyval :=
  λ w,
  match is_ndarray vertex w with
  | None => Raise (TypeError "Expecting a Numpy NDArray object") w
  | Some _ =>
      (get_Axes self;;
       s ← (r ← RenderObject_init c fuel self vertex kwargs; alloc (mk r));
       append_renderObject self (VRef s);;
       mret VNone) w
  end.

(** The world after a successful plot call: the render object [r] is stored
    at the new location [s] and appended to the axes. *)
Definition plotted (mk : RenderObject → pyobj) (self : loc) (a : Axes)
    (r : RenderObject) (s : loc) (w3 w' : world) : Prop :=
  s = fresh (dom (heap w3)) ∧
  heap w' = <[self := OAxes (MkAxes (ax_fig a) (ax_renderObjects a ++ [VRef s]) (ax_properties a))]>
              (<[s := mk r]> (heap w3)) ∧
  uuid_calls w' = uuid_calls w3 ∧ hook_calls w' = hook_calls w3.


(** The world a call ends in, returning or raising. *)
Definition final {A} (o : outcome A) : option world :=
  match o with
  | Return _ w | Raise _ w => Some w
  | Timeout | Untyped => None
  end.

(** [Figure_le ids F F']: [F'] has the axes of [F] and maybe more at the
    end, every data entry of [F], every material key of [F], and, when [ids]
    is set, the ID of [F]. *)
Definition Figure_le (ids : bool) (F F' : Figure) : Prop :=
  (ids = true → fig_ID F' = fig_ID F) ∧
  fig_axes F `prefix_of` fig_axes F' ∧
  fig_dataDict F ⊆ fig_dataDict F' ∧
  dom (fig_materialDict F) ⊆ dom (fig_materialDict F').

Definition figures_le (ids : bool) (w w' : world) : Prop :=
  ∀ l F, heap w !! l = Some (OFigure F) →
    ∃ F', heap w' !! l = Some (OFigure F') ∧ Figure_le ids F F'.

(** The calls that assign to the [ID] property. *)
Definition assigns_ID (c : call) : bool :=
  match c with CFigure_set_ID _ _ => true | _ => false end.

(** [addData] on each buffer of [bs] in turn. *)
Definition addData_script (self : loc) (bs : list loc) : list call :=
  (λ b, CFigure_addData self (VRef b)) <$> bs.

(** The scenes a render pass is run on: the data registry holds ndarrays,
    the material registry Materials, the axes list Axes whose render objects
    are Scatter or Surface objects with a Material. *)
Definition renderable (w : world) (obj : pyval) : bool :=
  match obj with
  | VRef l =>
      match heap w !! l with
      | Some (OScatter r) | Some (OSurface r) =>
          bool_decide (is_Some (is_Material (ro_material r) w))
      | _ => false
      end
  | _ => false
  end.

Definition axes_ok (w : world) (ax : loc) : bool :=
  match heap w !! ax with
  | Some (OAxes a) => forallb (renderable w) (ax_renderObjects a)
  | _ => false
  end.

Definition scene_ok (w : world) (F : Figure) : bool :=
  forallb (λ kv, bool_decide (is_Some (is_ndarray (VRef kv.2) w))) (map_to_list (fig_dataDict F))
  && forallb (λ kv, bool_decide (is_Some (is_Material (VRef kv.2) w))) (map_to_list (fig_materialDict F))
  && forallb (axes_ok w) (fig_axes F).

(** The invariant of the store that the calls maintain, and from which
    [scene_ok] follows for every figure. *)
Definition fig_inv (w : world) (F : Figure) : Prop :=
  (∀ k b, fig_dataDict F !! k = Some b → ∃ a, heap w !! b = Some (ONdarray a)) ∧
  (∀ k m, fig_materialDict F !! k = Some m → ∃ mat, heap w !! m = Some (OMaterial mat)) ∧
  (∀ ax, ax ∈ fig_axes F → ∃ a, heap w !! ax = Some (OAxes a)).

Definition obj_inv (w : world) (o : pyobj) : Prop :=
  match o with
  | OFigure F => fig_inv w F
  | OAxes a => ∀ obj, obj ∈ ax_renderObjects a → renderable w obj = true
  | _ => True
  end.

Definition inv (w : world) : Prop :=
  ∀ l o, heap w !! l = Some o → obj_inv w o.

(** Figures stay figures and axes stay axes; the other objects stay as they
    are. *)
Definition same_kind (o o' : pyobj) : Prop :=
  match o, o' with
  | OFigure _, OFigure _ | OAxes _, OAxes _ => True
  | _, _ => o' = o
  end.

Definition stable (w w' : world) : Prop :=
  ∀ l o, heap w !! l = Some o → ∃ o', heap w' !! l = Some o' ∧ same_kind o o'.

(** The calls that keep the invariant: all but [addRenderObject], which
    takes any object. *)
Definition validated (c : call) : bool :=
  match c with CAxes_addRenderObject _ _ => false | _ => true end.

(** ** Predicates of the further properties *)


(** [Axes_le a a']: [a'] is the axes [a] with maybe more render objects at
    the end. *)
Definition Axes_le (a a' : Axes) : Prop :=
  ax_fig a' = ax_fig a ∧ ax_properties a' = ax_properties a ∧
  ax_renderObjects a `prefix_of` ax_renderObjects a'.

(** How an object of the store may differ later: a figure and an axes may
    have grown, the other objects are as they were. *)
Definition obj_le (o o' : pyobj) : Prop :=
  match o, o' with
  | OFigure F, OFigure F' => Figure_le false F F'
  | OAxes a, OAxes a' => Axes_le a a'
  | _, _ => o' = o
  end.

Definition store_le (w w' : world) : Prop :=
  ∀ l o, heap w !! l = Some o → ∃ o', heap w' !! l = Some o' ∧ obj_le o o'.

(** The render object [r] refers to what its figure has: the data ID is a
    key of the data registry and the ID of the material is a key of the
    material registry of the figure that owns the axes of [r]. *)
Definition resolves (w : world) (r : RenderObject) : Prop :=
  ∃ a f F k b m mat,
    owner_of w (ro_axes r) = Some (a, f, F) ∧
    ro_dataID r = VStr k ∧ fig_dataDict F !! k = Some b ∧
    ro_material r = VRef m ∧ heap w !! m = Some (OMaterial mat) ∧
    is_Some (fig_materialDict F !! mat_ID mat).

(** Every entry of the material registry is a Material under its own ID. *)
Definition keyed (w : world) (F : Figure) : Prop :=
  ∀ k m, fig_materialDict F !! k = Some m →
    ∃ mat, heap w !! m = Some (OMaterial mat) ∧ mat_ID mat = k.

Definition refs_obj (w : world) (o : pyobj) : Prop :=
  match o with
  | OFigure F => keyed w F
  | OScatter r | OSurface r => resolves w r
  | _ => True
  end.

Definition refs_inv (w : world) : Prop :=
  ∀ l o, heap w !! l = Some o → refs_obj w o.

End Model.

(** ** A concrete scene

    The embedding run on an instance: a UUID source with pairwise distinct
    draws, templates that print their arguments, and a store with two
    ndarrays of equal value and a material. *)

Module Demo.

Fixpoint tally (n : nat) : string :=
  match n with
  | O => "id"
  | S k => "u" ++ tally k
  end.

#[local] Instance source : UuidSource := {| uuid4 := tally |}.

#[local] Instance templates : Templates := {|
  toJson a := "[...]";
  Material_render m := "Material(" ++ mat_ID m ++ ")";
  js_datasource DATA := "data;";
  js_materials materials := "materials;";
  js_figure id := match id with VStr s => "figure(" ++ s ++ ");" | _ => "figure;" end;
  js_axes objects prop := "axes(" ++ str_join objects ++ ");";
  js_scatter vertex material := "scatter(" ++ material ++ ")";
  js_surface vertex material := "surface(" ++ material ++ ")"
|}.

Definition array123 : ndarray := NdArray [3] [1; 2; 3]%Z.

(** Two distinct ndarray objects of equal value at 1 and 2, a material at 3. *)
Definition w0 : world :=
  World (<[1 := ONdarray array123]>
         (<[2 := ONdarray array123]>
         (<[3 := OMaterial (MkMaterial MaterialBase "m")]> ∅))) 0 [].

Definition world_of {A} (o : outcome A) : world := default w0 (final o).

(** [fig = Figure(); a1 = fig.addAxes(); a2 = fig.addAxes()]: the figure is
    at 4, the axes at 5 and 6. *)
Definition scene : world :=
  world_of ((f ← Figure_init; Figure_addAxes f ∅;; Figure_addAxes f ∅) w0).

Definition fig0 : Figure := MkFigure (VStr "id") [5; 6] ∅ ∅.

Definition axes0 : Axes :=
  MkAxes (VRef 4) []
    (<["bgcolor" := VColor (VFloat 15 (-4))]> (<["size" := VPair (VInt 800) (VInt 800)]> ∅)).

(** [a1.scatter(v1); a2.surface(v2, material=m)] on the scene. *)
Definition plots : list call :=
  [CAxes_scatter 5 (VRef 1) ∅; CAxes_surface 6 (VRef 2) (<["material" := VRef 3]> ∅)].

Definition plotted_scene : world := world_of (run 0 plots scene).

Definition fig2 : Figure :=
  MkFigure (VStr "id") [5; 6]
    (<["uid" := 1]> (<["uuuid" := 2]> ∅))
    (<["uuid" := 7]> (<["m" := 3]> ∅)).



(** A registry whose only key is the next draw of the UUID source: the
    first draw collides and the second is taken. *)
Definition crowded : world :=
  World (<[4 := OFigure (MkFigure (VStr "f") [] (<["id" := 2]> ∅) ∅)]> (heap w0)) 0 [].

(** Two figures at 4 and 5, beside the arrays and the material of [w0]. *)
Definition two_figures : world :=
  World (<[4 := OFigure (MkFigure (VStr "f1") [] ∅ ∅)]>
         (<[5 := OFigure (MkFigure (VStr "f2") [] ∅ ∅)]> (heap w0))) 0 [].

(** A figure at 4 and, at 5, a second material with the ID of the one at 3. *)
Definition clash : world :=
  World (<[4 := OFigure (MkFigure (VStr "f") [] ∅ ∅)]>
         (<[5 := OMaterial (MkMaterial PointMaterial "m")]> (heap w0))) 0 [].

(** The store after [fig = Figure()]. *)
Definition created : world := world_of (Figure_init w0).

Definition two_axes : list call := [CFigure_addAxes 4 ∅; CFigure_addAxes 4 ∅].



End Demo.

(** * Part II: lemmas and theorems *)

Section Facts.

Context `{U : UuidSource, T : Templates}.

#[local] Set Default Proof Using "Type".

(** ** Dictionaries scanned by identity *)

Lemma find_identical_Some items x k :
  find_identical items x = Some k → (k, x) ∈ items.
Proof.
  induction items as [|[k' v] rest IH]; simpl; [done|].
  case_decide as Hv.
  - intros [= ->]. subst v. left.
  - intros H. right. auto.
Qed.

Lemma find_identical_None items x :
  find_identical items x = None ↔ ∀ k, (k, x) ∉ items.
Proof.
  induction items as [|[k' v] rest IH]; simpl.
  - split; [intros _ k Hk; inversion Hk | done].
  - case_decide as Hv.
    + subst v. split; [done|]. intros H. destruct (H k'). left.
    + rewrite IH. split.
      * intros H k Hk. apply elem_of_cons in Hk as [[= _ ?]|Hk]; [done|]. by apply (H k).
      * intros H k Hk. apply (H k). by right.
Qed.

Lemma scan_Some (d : gmap string loc) x k :
  find_identical (map_to_list d) x = Some k → d !! k = Some x.
Proof. intros H%find_identical_Some. by apply elem_of_map_to_list in H. Qed.

Lemma scan_None (d : gmap string loc) x :
  find_identical (map_to_list d) x = None ↔ ¬ registered d x.
Proof.
  rewrite find_identical_None. split.
  - intros H [k Hk]. apply (H k). by apply elem_of_map_to_list.
  - intros H k Hk%elem_of_map_to_list. apply H. by exists k.
Qed.

Lemma scan_registered (d : gmap string loc) x :
  registered d x → ∃ k, find_identical (map_to_list d) x = Some k ∧ d !! k = Some x.
Proof.
  intros Hreg. destruct (find_identical (map_to_list d) x) as [k|] eqn:E.
  - exists k. split; [done|]. by apply scan_Some.
  - by apply scan_None in E.
Qed.

(** After registering [x] under a new key, the scan finds it under that key. *)
Lemma scan_insert_fresh (d : gmap string loc) x k :
  ¬ registered d x →
  find_identical (map_to_list (<[k := x]> d)) x = Some k.
Proof.
  intros Hnot.
  destruct (scan_registered (<[k := x]> d) x) as (k' & Hscan & Hk').
  { exists k. apply lookup_insert_eq. }
  destruct (decide (k = k')) as [->|Hne]; [done|].
  rewrite lookup_insert_ne in Hk' by done. destruct Hnot. by exists k'.
Qed.

Lemma has_key_true {V} (d : gmap string V) k : has_key d k = true ↔ k ∈ dom d.
Proof.
  unfold has_key. rewrite elem_of_dom. by destruct (d !! k); split.
Qed.

Lemma has_key_false {V} (d : gmap string V) k : has_key d k = false ↔ d !! k = None.
Proof. unfold has_key. by destruct (d !! k). Qed.

(** ** The collision loop *)

(** What the loop returns is not a key of the dictionary, and it touches
    nothing but the UUID source. *)
Lemma regenerate_Return fuel d u w k w' :
  regenerate fuel d u w = Return k w' →
  d !! k = None ∧ heap w' = heap w ∧ hook_calls w' = hook_calls w ∧
  uuid_calls w ≤ uuid_calls w'.
Proof.
  revert u w. induction fuel as [|fuel IH]; intros u w; simpl;
    destruct (has_key d u) eqn:Hu.
  - done.
  - intros [= -> ->]. by apply has_key_false in Hu.
  - unfold mbind, M_bind, str_uuid4. intros H%IH. simpl in H.
    destruct H as (? & ? & ? & ?). repeat split; auto with lia.
  - intros [= -> ->]. by apply has_key_false in Hu.
Qed.

Lemma regenerate_no_Raise fuel d u w e w' :
  regenerate fuel d u w ≠ Raise e w'.
Proof.
  revert u w. induction fuel as [|fuel IH]; intros u w; simpl;
    destruct (has_key d u); try done.
  unfold mbind, M_bind, str_uuid4. apply IH.
Qed.

(** With pairwise distinct draws, the loop ends before it has seen more
    colliding keys than the dictionary has: [seen] are the keys that
    collided so far. *)
Lemma regenerate_terminates_seen fuel : ∀ d u w (seen : gset string),
  Inj (=) (=) uuid4 →
  seen ⊆ dom d → u ∉ seen →
  (∀ n, uuid_calls w ≤ n → (uuid4 n ∉ seen) ∧ (uuid4 n ≠ u)) →
  size d ≤ fuel + size seen →
  ∃ k w', regenerate fuel d u w = Return k w'.
Proof.
  induction fuel as [|fuel IH]; intros d u w seen Hinj Hsub Hu Hfut Hsize;
    simpl; destruct (has_key d u) eqn:Hk; try by eauto.
  - apply has_key_true in Hk.
    clear Hfut.
    assert (size ({[u]} ∪ seen) ≤ size (dom d)) as Hle
      by (apply subseteq_size; set_solver).
    rewrite size_union, size_singleton, size_dom in Hle by set_solver. lia.
  - apply has_key_true in Hk. unfold mbind, M_bind, str_uuid4.
    apply (IH d _ _ ({[u]} ∪ seen)); simpl; auto.
    + clear Hfut. set_solver.
    + destruct (Hfut (uuid_calls w)) as [? ?]; [lia|]. clear Hfut. set_solver.
    + intros n Hn. destruct (Hfut n) as [? ?]; [lia|]. clear Hfut.
      split; [set_solver|]. intros Heq%Hinj. lia.
    + clear Hfut. rewrite size_union, size_singleton by set_solver. lia.
Qed.

Lemma regenerate_terminates fuel d w :
  Inj (=) (=) uuid4 → size d ≤ fuel →
  ∃ k w', (str_uuid4 ≫= regenerate fuel d) w = Return k w'.
Proof.
  intros Hinj Hsize. unfold mbind, M_bind, str_uuid4.
  apply (regenerate_terminates_seen fuel d _ _ ∅); auto.
  - set_solver.
  - set_solver.
  - simpl. intros n Hn. split; [set_solver|]. intros Heq%Hinj. lia.
  - rewrite size_empty. lia.
Qed.

(** ** [Figure.addData], case by case *)

Ltac unfold_M :=
  unfold mbind, M_bind, mret, M_ret, raise, untyped, get_Figure, get_Axes,
    store, alloc, str_uuid4, addToFigure, set_heap in *.

Lemma Figure_addData_Raise fuel self data w e w' :
  Figure_addData fuel self data w = Raise e w' →
  is_ndarray data w = None ∧ e = TypeError "Expecting Numpy ndarray object" ∧ w' = w.
Proof.
  unfold Figure_addData. destruct (is_ndarray data w) as [b|]; [|by intros [= <- <-]].
  unfold_M. destruct (heap w !! self) as [[]|]; try done.
  destruct (find_identical _ b); [done|].
  match goal with |- context [regenerate ?n ?d ?u ?w0] =>
    destruct (regenerate n d u w0) as [k w1| e1 w1| |] eqn:Hloop end; try done.
  by apply regenerate_no_Raise in Hloop.
Qed.

Lemma Figure_addData_Return fuel self data w v w' :
  Figure_addData fuel self data w = Return v w' →
  ∃ b f k, is_ndarray data w = Some b ∧ heap w !! self = Some (OFigure f) ∧
    v = VStr k ∧
    ((find_identical (map_to_list (fig_dataDict f)) b = Some k ∧ w' = w) ∨
     data_added self f k b w w').
Proof.
  unfold Figure_addData. destruct (is_ndarray data w) as [b|]; [|done].
  unfold_M. destruct (heap w !! self) as [[| |f| | |]|] eqn:Hself; try done.
  destruct (find_identical _ b) as [k|] eqn:Hscan.
  - intros [= <- <-]. exists b, f, k. repeat split; auto.
  - match goal with |- context [regenerate ?n ?d ?u ?w0] =>
      destruct (regenerate n d u w0) as [k w1| e1 w1| |] eqn:Hloop end; try done.
    intros [= <- <-]. exists b, f, k. do 3 (split; [done|]). right.
    apply regenerate_Return in Hloop as (Hk & Hh & Hc & Hu). simpl in *.
    apply scan_None in Hscan. unfold data_added. simpl. rewrite Hh, Hc.
    repeat split; auto with lia.
Qed.

(** A registered buffer is found, whatever the fuel. *)
Lemma Figure_addData_hit fuel self b f k w :
  is_ndarray (VRef b) w = Some b → heap w !! self = Some (OFigure f) →
  find_identical (map_to_list (fig_dataDict f)) b = Some k →
  Figure_addData fuel self (VRef b) w = Return (VStr k) w.
Proof.
  intros Hb Hself Hscan. unfold Figure_addData. rewrite Hb. unfold_M.
  by rewrite Hself, Hscan.
Qed.

(** A new buffer is registered, given distinct draws and enough fuel. *)
Lemma Figure_addData_miss fuel self b f w :
  Inj (=) (=) uuid4 → size (fig_dataDict f) ≤ fuel →
  is_ndarray (VRef b) w = Some b → heap w !! self = Some (OFigure f) →
  ¬ registered (fig_dataDict f) b →
  ∃ k w', Figure_addData fuel self (VRef b) w = Return (VStr k) w' ∧
          data_added self f k b w w'.
Proof.
  intros Hinj Hfuel Hb Hself Hnot.
  destruct (regenerate_terminates fuel (fig_dataDict f) w Hinj Hfuel) as (k & w1 & Hloop).
  assert (Figure_addData fuel self (VRef b) w =
          Return (VStr k) (set_heap (<[self := OFigure (set_dataDict f (<[k := b]> (fig_dataDict f)))]> (heap w1)) w1)) as Hrun.
  { unfold Figure_addData. rewrite Hb. apply scan_None in Hnot.
    revert Hloop. unfold_M. rewrite Hself, Hnot. by intros ->. }
  eexists _, _. split; [exact Hrun|].
  apply Figure_addData_Return in Hrun as (b' & f' & k' & Hb' & Hself' & [= <-] & [[Hscan _]|Hadd]).
  - simplify_eq. apply scan_Some in Hscan. destruct Hnot. by exists k.
  - by simplify_eq.
Qed.

Lemma is_ndarray_ref b a w : heap w !! b = Some (ONdarray a) → is_ndarray (VRef b) w = Some b.
Proof. intros H. simpl. by rewrite H. Qed.

Lemma data_added_frame self f k b w w' l :
  data_added self f k b w w' → l ≠ self → heap w' !! l = heap w !! l.
Proof. intros (_ & _ & -> & _) Hl. by rewrite lookup_insert_ne. Qed.

Lemma data_added_self self f k b w w' :
  data_added self f k b w w' →
  heap w' !! self = Some (OFigure (set_dataDict f (<[k := b]> (fig_dataDict f)))).
Proof. intros (_ & _ & -> & _). by rewrite lookup_insert_eq. Qed.

(** [addData] on a buffer returns a key, and the buffer is found under that
    key afterwards. *)
Lemma Figure_addData_ok fuel self b a f w :
  Inj (=) (=) uuid4 → size (fig_dataDict f) ≤ fuel →
  heap w !! self = Some (OFigure f) → heap w !! b = Some (ONdarray a) →
  ∃ k w' f', Figure_addData fuel self (VRef b) w = Return (VStr k) w' ∧
    heap w' !! self = Some (OFigure f') ∧
    find_identical (map_to_list (fig_dataDict f')) b = Some k ∧
    ((w' = w ∧ f' = f) ∨
     (data_added self f k b w w' ∧
      f' = set_dataDict f (<[k := b]> (fig_dataDict f)))).
Proof.
  intros Hinj Hfuel Hself Hb.
  pose proof (is_ndarray_ref _ _ _ Hb) as Hnd.
  destruct (find_identical (map_to_list (fig_dataDict f)) b) as [k|] eqn:Hscan.
  - exists k, w, f. split; [by eapply Figure_addData_hit|]. auto.
  - apply scan_None in Hscan.
    destruct (Figure_addData_miss fuel self b f w) as (k & w' & Hrun & Hadd); auto.
    exists k, w', (set_dataDict f (<[k := b]> (fig_dataDict f))).
    split; [done|]. split; [by eapply data_added_self|].
    split; [by apply scan_insert_fresh|]. auto.
Qed.

(** C1. Deduplication of data buffers by identity.  From any world in which
    [self] is a Figure and [b], [b2] are two distinct ndarray objects of equal
    value: [addData(b)] returns an ID; a second [addData(b)] returns the same
    ID and leaves the world as it is (no new entry); [addData(b2)] then
    returns a different ID, and when [b2] was not registered yet the registry
    gains exactly the entry of that ID for [b2]. *)
Theorem C1_addData_dedup_by_identity fuel self f b b2 a w :
  Inj (=) (=) uuid4 → size (fig_dataDict f) < fuel →
  heap w !! self = Some (OFigure f) →
  heap w !! b = Some (ONdarray a) → heap w !! b2 = Some (ONdarray a) → b2 ≠ b →
  ∃ id1 w1 f1,
    Figure_addData fuel self (VRef b) w = Return (VStr id1) w1 ∧
    Figure_addData fuel self (VRef b) w1 = Return (VStr id1) w1 ∧
    heap w1 !! self = Some (OFigure f1) ∧ fig_dataDict f1 !! id1 = Some b ∧
    ∃ id2 w2 f2,
      Figure_addData fuel self (VRef b2) w1 = Return (VStr id2) w2 ∧
      id2 ≠ id1 ∧
      heap w2 !! self = Some (OFigure f2) ∧ fig_dataDict f2 !! id2 = Some b2 ∧
      (¬ registered (fig_dataDict f1) b2 →
         fig_dataDict f1 !! id2 = None ∧
         fig_dataDict f2 = <[id2 := b2]> (fig_dataDict f1) ∧
         size (fig_dataDict f2) = S (size (fig_dataDict f1))).
Proof.
  intros Hinj Hfuel Hself Hb Hb2 Hne.
  assert (self ≠ b ∧ self ≠ b2) as [Hsb Hsb2] by (split; congruence).
  destruct (Figure_addData_ok fuel self b a f w) as (id1 & w1 & f1 & Hrun1 & Hself1 & Hscan1 & Hcase1);
    auto with lia.
  assert (heap w1 !! b = Some (ONdarray a) ∧ heap w1 !! b2 = Some (ONdarray a) ∧
          size (fig_dataDict f1) ≤ fuel) as (Hb' & Hb2' & Hfuel1).
  { destruct Hcase1 as [[-> ->]|[Hadd ->]]; [auto with lia|].
    rewrite !(data_added_frame _ _ _ _ _ _ _ Hadd) by done.
    destruct Hadd as (_ & Hfresh & _). simpl.
    rewrite map_size_insert_None by done. auto with lia. }
  exists id1, w1, f1. split; [done|].
  split; [by eapply Figure_addData_hit; [eapply is_ndarray_ref| |]|].
  split; [done|]. split; [by apply scan_Some|].
  destruct (Figure_addData_ok fuel self b2 a f1 w1) as (id2 & w2 & f2 & Hrun2 & Hself2 & Hscan2 & Hcase2);
    auto.
  exists id2, w2, f2. split; [done|].
  apply scan_Some in Hscan1. pose proof (scan_Some _ _ _ Hscan2) as Hid2.
  assert (id2 ≠ id1) as Hids.
  { intros ->. destruct Hcase2 as [[_ ->]|[(_ & Hfresh & _) ->]]; [congruence|].
    congruence. }
  do 3 (split; [done|]). intros Hnot.
  destruct Hcase2 as [[_ ->]|[(_ & Hfresh & _) ->]].
  - destruct Hnot. by exists id2.
  - simpl. by rewrite map_size_insert_None.
Qed.

(** ** [Figure.addMaterial], case by case *)

Lemma is_Material_ref m mat w :
  heap w !! m = Some (OMaterial mat) → is_Material (VRef m) w = Some (m, mat).
Proof. intros H. simpl. by rewrite H. Qed.

Lemma is_Material_Some v w m mat :
  is_Material v w = Some (m, mat) → v = VRef m ∧ heap w !! m = Some (OMaterial mat).
Proof.
  destruct v; simpl; try done.
  destruct (heap w !! l) as [[]|] eqn:E; try done. by intros [= <- <-].
Qed.

Lemma is_ndarray_Some v w b :
  is_ndarray v w = Some b → v = VRef b ∧ ∃ a, heap w !! b = Some (ONdarray a).
Proof.
  destruct v; simpl; try done.
  destruct (heap w !! l) as [[]|] eqn:E; try done. intros [= <-]. eauto.
Qed.

Lemma Figure_addMaterial_eq self m mat f w :
  is_Material (VRef m) w = Some (m, mat) → heap w !! self = Some (OFigure f) →
  Figure_addMaterial self (VRef m) w =
    Return (VRef m)
      (match find_identical (map_to_list (fig_materialDict f)) m with
       | Some _ => w
       | None => material_added self f m mat w
       end).
Proof.
  intros Hm Hself. unfold Figure_addMaterial. rewrite Hm. unfold_M.
  rewrite Hself. destruct (find_identical _ m); [done|].
  simpl. by rewrite Hself.
Qed.

Lemma Figure_addMaterial_Raise self m w e w' :
  Figure_addMaterial self m w = Raise e w' →
  is_Material m w = None ∧ e = TypeError "Expecting Material object" ∧ w' = w.
Proof.
  unfold Figure_addMaterial.
  destruct (is_Material m w) as [[lm mat]|]; [|by intros [= <- <-]].
  unfold_M. destruct (heap w !! self) as [[| |f| | |]|] eqn:Hself; try done.
  destruct (find_identical _ lm); [done|]. simpl. by rewrite Hself.
Qed.

Lemma Figure_addMaterial_Return self m w v w' :
  Figure_addMaterial self m w = Return v w' →
  ∃ lm mat f, is_Material m w = Some (lm, mat) ∧
    heap w !! self = Some (OFigure f) ∧ v = VRef lm ∧
    ((registered (fig_materialDict f) lm ∧ w' = w) ∨
     (¬ registered (fig_materialDict f) lm ∧ w' = material_added self f lm mat w)).
Proof.
  unfold Figure_addMaterial.
  destruct (is_Material m w) as [[lm mat]|] eqn:Hm; [|done].
  unfold_M. destruct (heap w !! self) as [[| |f| | |]|] eqn:Hself; try done.
  destruct (find_identical _ lm) as [k|] eqn:Hscan.
  - intros [= <- <-]. exists lm, mat, f. repeat split; auto.
    left. split; [|done]. exists k. by apply scan_Some.
  - simpl. rewrite Hself. intros [= <- <-]. exists lm, mat, f. repeat split; auto.
    right. split; [|done]. by apply scan_None.
Qed.

(** C2. Material deduplication and single binding.  For a Material object
    [m] and a Figure [self], two calls of [addMaterial(m)] in a row both
    return [m] itself; the binding hook [addToFigure] runs once, in the call
    that registers [m], and a call on a registered [m] changes nothing. *)
Theorem C2_addMaterial_dedup_single_binding self f m mat w :
  heap w !! self = Some (OFigure f) → heap w !! m = Some (OMaterial mat) →
  ∃ w1,
    Figure_addMaterial self (VRef m) w = Return (VRef m) w1 ∧
    Figure_addMaterial self (VRef m) w1 = Return (VRef m) w1 ∧
    (¬ registered (fig_materialDict f) m →
       hook_calls w1 = (hook_calls w ++ [(m, self)])%list) ∧
    (registered (fig_materialDict f) m → w1 = w).
Proof.
  intros Hself Hm.
  assert (self ≠ m) as Hsm by congruence.
  pose proof (is_Material_ref _ _ _ Hm) as HM.
  rewrite (Figure_addMaterial_eq self m mat f w HM Hself).
  destruct (find_identical (map_to_list (fig_materialDict f)) m) as [k|] eqn:Hscan.
  - exists w. split; [done|].
    rewrite (Figure_addMaterial_eq self m mat f w HM Hself), Hscan.
    split; [done|]. split; [|done].
    intros Hnot. destruct Hnot. exists k. by apply scan_Some.
  - exists (material_added self f m mat w). split; [done|].
    apply scan_None in Hscan. split; [|split; [done|by intros ?]].
    rewrite (Figure_addMaterial_eq self m mat
      (set_materialDict f (<[mat_ID mat := m]> (fig_materialDict f)))).
    + simpl. by rewrite scan_insert_fresh.
    + simpl. rewrite lookup_insert_ne by done. by rewrite Hm.
    + simpl. by rewrite lookup_insert_eq.
Qed.

(** C7. Type rejection.  With [v] anything but an ndarray and [m] anything
    but a Material, [Figure.addData(v)], [Axes.scatter(v, ...)] and
    [Axes.surface(v, ...)] raise TypeError and [Figure.addMaterial(m)] raises
    TypeError; the check comes first, so the world is as before the call. *)
Theorem C7_type_rejection fuel self v m kwargs w :
  is_ndarray v w = None → is_Material m w = None →
  Figure_addData fuel self v w = Raise (TypeError "Expecting Numpy ndarray object") w ∧
  Figure_addMaterial self m w = Raise (TypeError "Expecting Material object") w ∧
  Axes_scatter fuel self v kwargs w = Raise (TypeError "Expecting a Numpy NDArray object") w ∧
  Axes_surface fuel self v kwargs w = Raise (TypeError "Expecting a Numpy NDArray object") w.
Proof.
  intros Hv Hm.
  unfold Figure_addData, Figure_addMaterial, Axes_scatter, Axes_surface.
  by rewrite Hv, Hm.
Qed.

(** C8. The [data] property is read-only.  Assigning to [data] of a Figure
    or of an Axes raises the exception of the setter, for every receiver and
    every assigned value, and leaves the world (so the data registry) as it
    was. *)
Theorem C8_data_property_read_only fuel self value w :
  exec fuel (CFigure_set_data self value) w =
    Raise (Exception "data source dictionary cannot be set") w ∧
  exec fuel (CAxes_set_data self value) w =
    Raise (Exception "data source dictionary cannot be set") w.
Proof. done. Qed.

(** ** Axes: delegation to the owning figure *)

Lemma owner_of_Some w self a f F :
  owner_of w self = Some (a, f, F) ↔
  heap w !! self = Some (OAxes a) ∧ ax_fig a = VRef f ∧ heap w !! f = Some (OFigure F).
Proof.
  unfold owner_of. split.
  - destruct (heap w !! self) as [[| | |a'| |]|]; try done.
    destruct (ax_fig a') as [| | | | | |f'] eqn:Hf; try done.
    destruct (heap w !! f') as [[| |F'| | |]|] eqn:HF; try done.
    intros [= <- <- <-]. by rewrite HF.
  - intros (-> & -> & ->). done.
Qed.

Lemma Axes_addData_eq fuel self data w :
  Axes_addData fuel self data w =
    match owner_of w self with
    | Some (_, f, _) => Figure_addData fuel f data w
    | None => Untyped
    end.
Proof.
  unfold Axes_addData, owner_of, owner. unfold_M.
  destruct (heap w !! self) as [[| | |a| |]|]; try done.
  destruct (ax_fig a) as [| | | | | |f]; try done. unfold_M.
  by destruct (heap w !! f) as [[| |F| | |]|].
Qed.

Lemma Axes_addMaterial_eq self m w :
  Axes_addMaterial self m w =
    match owner_of w self with
    | Some (_, f, _) => Figure_addMaterial f m w
    | None => Untyped
    end.
Proof.
  unfold Axes_addMaterial, owner_of, owner. unfold_M.
  destruct (heap w !! self) as [[| | |a| |]|]; try done.
  destruct (ax_fig a) as [| | | | | |f]; try done. unfold_M.
  by destruct (heap w !! f) as [[| |F| | |]|].
Qed.

(** ** Construction of render objects *)

Lemma Material_init_eq c w :
  Material_init c w =
    Return (VRef (fresh (dom (heap w))))
      (World (<[fresh (dom (heap w)) := OMaterial (MkMaterial c (uuid4 (uuid_calls w)))]> (heap w))
             (S (uuid_calls w)) (hook_calls w)).
Proof. done. Qed.

Lemma fresh_loc_None (w : world) : heap w !! fresh (dom (heap w)) = None.
Proof. apply not_elem_of_dom, is_fresh. Qed.

(** The figure and the axes are where they were in [w2]; the figure has at
    most gained the vertex buffer. *)
Lemma staged_heap c fuel axes vertex w a f F k w1 lm w2 :
  staged c fuel axes vertex w a f F k w1 lm w2 →
  ∃ b F', is_ndarray vertex w = Some b ∧
    heap w2 !! axes = Some (OAxes a) ∧ heap w2 !! f = Some (OFigure F') ∧
    owner_of w2 axes = Some (a, f, F') ∧
    fig_dataDict F' !! k = Some b ∧
    (F' = F ∨ (fig_dataDict F !! k = None ∧ ¬ registered (fig_dataDict F) b ∧
               F' = set_dataDict F (<[k := b]> (fig_dataDict F)))) ∧
    hook_calls w2 = hook_calls w ∧ heap w !! lm = None ∧
    (∀ l, l ≠ f → l ≠ lm → heap w2 !! l = heap w !! l).
Proof.
  intros [Hown Hdata -> ->].
  apply owner_of_Some in Hown as (Haxes & Hfig & HF).
  apply Figure_addData_Return in Hdata as (b & F0 & k0 & Hb & HF0 & [= <-] & Hcase).
  assert (F0 = F) as -> by congruence.
  assert (axes ≠ f) as Hne by congruence.
  pose proof (fresh_loc_None w1) as Hfresh.
  set (lm := fresh (dom (heap w1))) in *.
  destruct Hcase as [[Hscan ->]|Hadd].
  - exists b, F. split; [done|]. simpl.
    assert (lm ≠ axes ∧ lm ≠ f) as [? ?] by (split; congruence).
    rewrite !lookup_insert_ne by done.
    repeat split; auto.
    + apply owner_of_Some. simpl. rewrite !lookup_insert_ne by done. auto.
    + by apply scan_Some.
    + intros l _ Hl. by rewrite lookup_insert_ne.
  - pose proof (data_added_self _ _ _ _ _ _ Hadd) as Hself.
    pose proof (data_added_frame _ _ _ _ _ _ axes Hadd Hne) as Hax1.
    assert (lm ≠ axes ∧ lm ≠ f) as [? ?] by (split; congruence).
    exists b, (set_dataDict F (<[k := b]> (fig_dataDict F))). split; [done|]. simpl.
    rewrite !lookup_insert_ne by done. rewrite Hax1, Hself.
    destruct Hadd as (Hnot & Hk & Hheap & Hhook & _).
    repeat split; auto.
    + apply owner_of_Some. simpl. rewrite !lookup_insert_ne by done.
      rewrite Hax1, Hself. auto.
    + apply lookup_insert_eq.
    + destruct (decide (lm = f)) as [->|Hlf]; [done|].
      rewrite Hheap, lookup_insert_ne in Hfresh by done. done.
    + intros l Hlf Hl. rewrite lookup_insert_ne by done.
      rewrite Hheap. by rewrite lookup_insert_ne.
Qed.

Lemma Figure_addData_Untyped fuel self data w :
  Figure_addData fuel self data w = Untyped →
  ∀ F, heap w !! self ≠ Some (OFigure F).
Proof.
  unfold Figure_addData. destruct (is_ndarray data w) as [b|]; [|done].
  unfold_M. destruct (heap w !! self) as [[| |f| | |]|] eqn:Hself; try done.
  destruct (find_identical _ b); [done|]. intros Hrun. exfalso. revert Hrun.
  generalize (uuid4 (uuid_calls w)).
  generalize ({| heap := heap w; uuid_calls := S (uuid_calls w); hook_calls := hook_calls w |}).
  generalize (fig_dataDict f) at 1 2. intros d w0 u.
  destruct (regenerate fuel d u w0) as [k w1|e w1| |] eqn:Hloop; try done.
  intros _. revert u w0 Hloop.
  induction fuel as [|fuel IH]; intros u w0; simpl; destruct (has_key d u); try done.
  unfold mbind, M_bind, str_uuid4. apply IH.
Qed.

Lemma Figure_addMaterial_typed self m w F :
  heap w !! self = Some (OFigure F) →
  Figure_addMaterial self m w ≠ Untyped ∧ Figure_addMaterial self m w ≠ Timeout.
Proof.
  intros Hself. unfold Figure_addMaterial.
  destruct (is_Material m w) as [[lm mat]|]; [|done].
  unfold_M. rewrite Hself. destruct (find_identical _ lm); [done|].
  simpl. by rewrite Hself.
Qed.

(** Every way [RenderObject_init] can end, for an ndarray vertex. *)
Lemma RenderObject_init_inv c fuel axes vertex kwargs w :
  is_Some (is_ndarray vertex w) →
  match RenderObject_init c fuel axes vertex kwargs w with
  | Return r w' =>
      ∃ a f F k w1 lm w2, staged c fuel axes vertex w a f F k w1 lm w2 ∧
        r = MkRenderObject axes (VStr k) (pop_default kwargs "material" (VRef lm)) ∧
        Figure_addMaterial f (pop_default kwargs "material" (VRef lm)) w2 =
          Return (pop_default kwargs "material" (VRef lm)) w'
  | Raise e w' =>
      ∃ a f F k w1 lm w2, staged c fuel axes vertex w a f F k w1 lm w2 ∧
        w' = w2 ∧ e = TypeError "Expecting Material object" ∧
        is_Material (pop_default kwargs "material" (VRef lm)) w2 = None
  | Timeout =>
      ∃ a f F, owner_of w axes = Some (a, f, F) ∧
        Figure_addData fuel f vertex w = Timeout
  | Untyped => owner_of w axes = None
  end.
Proof.
  intros [b Hb]. unfold RenderObject_init.
  unfold mbind at 1, M_bind at 1. rewrite Axes_addData_eq.
  destruct (owner_of w axes) as [[[a f] F]|] eqn:Hown; [|done].
  destruct (Figure_addData fuel f vertex w) as [v w1|e w1| |] eqn:Hdata.
  2:{ apply Figure_addData_Raise in Hdata as (Hnone & _). congruence. }
  2:{ by exists a, f, F. }
  2:{ apply owner_of_Some in Hown as (_ & _ & HF).
      by apply Figure_addData_Untyped with (F := F) in Hdata. }
  pose proof Hdata as Hret.
  apply Figure_addData_Return in Hret as (_ & _ & k & _ & _ & -> & _).
  unfold mbind at 1, M_bind at 1. rewrite Material_init_eq.
  set (lm := fresh (dom (heap w1))).
  set (w2 := World _ _ _).
  assert (staged c fuel axes vertex w a f F k w1 lm w2) as Hst by done.
  destruct (staged_heap _ _ _ _ _ _ _ _ _ _ _ _ Hst) as (b' & F' & _ & _ & HF' & Hown2 & _).
  unfold mbind at 1, M_bind at 1. rewrite Axes_addMaterial_eq, Hown2.
  destruct (Figure_addMaterial_typed f (pop_default kwargs "material" (VRef lm)) w2 F' HF')
    as [Hty Hto].
  destruct (Figure_addMaterial f _ w2) as [v w3|e w3| |] eqn:Hmat; try done.
  - unfold mret, M_ret. exists a, f, F, k, w1, lm, w2. repeat split; try done.
    pose proof Hmat as Hret.
    apply Figure_addMaterial_Return in Hret as (lm' & mat & ? & HM & _ & -> & _).
    apply is_Material_Some in HM as [HM _]. by rewrite HM in *.
  - apply Figure_addMaterial_Raise in Hmat as (Hnone & -> & ->).
    exists a, f, F, k, w1, lm, w2. done.
Qed.

Lemma Axes_scatter_plot : Axes_scatter = Axes_plot PointMaterial OScatter.
Proof. done. Qed.

Lemma Axes_surface_plot : Axes_surface = Axes_plot WireframeMaterial OSurface.
Proof. done. Qed.

Lemma Axes_plot_inv c mk fuel self vertex kwargs w :
  is_Some (is_ndarray vertex w) →
  match Axes_plot c mk fuel self vertex kwargs w with
  | Return v w' =>
      v = VNone ∧
      ∃ a f F k w1 lm w2 w3 s,
        staged c fuel self vertex w a f F k w1 lm w2 ∧
        Figure_addMaterial f (pop_default kwargs "material" (VRef lm)) w2 =
          Return (pop_default kwargs "material" (VRef lm)) w3 ∧
        plotted mk self a
          (MkRenderObject self (VStr k) (pop_default kwargs "material" (VRef lm)))
          s w3 w'
  | Raise e w' =>
      ∃ a f F k w1 lm w2, staged c fuel self vertex w a f F k w1 lm w2 ∧
        w' = w2 ∧ e = TypeError "Expecting Material object" ∧
        is_Material (pop_default kwargs "material" (VRef lm)) w2 = None
  | Timeout =>
      ∃ a f F, owner_of w self = Some (a, f, F) ∧
        Figure_addData fuel f vertex w = Timeout
  | Untyped => owner_of w self = None
  end.
Proof.
  intros Hnd. pose proof (RenderObject_init_inv c fuel self vertex kwargs w Hnd) as Hinit.
  unfold Axes_plot. destruct Hnd as [b ->].
  unfold mbind at 1, M_bind at 1. unfold get_Axes at 1.
  destruct (heap w !! self) as [[| | |a0| |]|] eqn:Hself;
    try by (unfold owner_of; rewrite Hself).
  unfold mbind at 1, M_bind at 1. unfold mbind at 1, M_bind at 1.
  destruct (RenderObject_init c fuel self vertex kwargs w) as [r w3|e w3| |]; try done.
  destruct Hinit as (a & f & F & k & w1 & lm & w2 & Hst & -> & Hmat).
  destruct (staged_heap _ _ _ _ _ _ _ _ _ _ _ _ Hst)
    as (b' & F' & _ & Hax2 & HF' & _ & _ & _ & _ & _ & _).
  assert (heap w3 !! self = Some (OAxes a)) as Hax3.
  { apply Figure_addMaterial_Return in Hmat as (lm' & mat & F'' & _ & _ & _ & [[_ ->]|[_ ->]]);
      [done|]. simpl. rewrite lookup_insert_ne by congruence. done. }
  pose proof (fresh_loc_None w3) as Hs.
  unfold alloc. set (s := fresh (dom (heap w3))) in *.
  assert (s ≠ self) as Hne by congruence.
  unfold append_renderObject. unfold_M. simpl.
  rewrite lookup_insert_ne by done. rewrite Hax3.
  split; [done|]. exists a, f, F, k, w1, lm, w2, w3, s. done.
Qed.


Lemma Figure_addAxes_eq self F kwargs w :
  heap w !! self = Some (OFigure F) →
  ∃ ax A w', Figure_addAxes self kwargs w = Return (VRef ax) w' ∧
    heap w !! ax = None ∧
    A = MkAxes (VRef self) []
          (<["bgcolor" := pop_default kwargs "bgcolor" (VColor (VFloat 15 (-4)))]>
           (<["size" := pop_default kwargs "size" (VPair (VInt 800) (VInt 800))]> ∅)) ∧
    heap w' = <[self := OFigure (set_axes F (fig_axes F ++ [ax]))]> (<[ax := OAxes A]> (heap w)) ∧
    uuid_calls w' = uuid_calls w ∧ hook_calls w' = hook_calls w.
Proof.
  intros Hself. pose proof (fresh_loc_None w) as Hfresh.
  unfold Figure_addAxes, Axes_init. unfold_M. simpl.
  set (ax := fresh (dom (heap w))) in *.
  assert (ax ≠ self) by congruence.
  rewrite lookup_insert_ne by done. rewrite Hself.
  by eexists ax, _, _.
Qed.


(** ** What a failing call leaves behind *)


Lemma Figure_addAxes_no_Raise self kwargs w e w' :
  Figure_addAxes self kwargs w ≠ Raise e w'.
Proof.
  unfold Figure_addAxes, Axes_init. unfold_M. simpl.
  by destruct (_ !! self) as [[]|].
Qed.


(** ** How figures evolve along calls *)

Lemma Figure_le_refl ids F : Figure_le ids F F.
Proof. by repeat split. Qed.

Lemma Figure_le_trans ids F1 F2 F3 :
  Figure_le ids F1 F2 → Figure_le ids F2 F3 → Figure_le ids F1 F3.
Proof.
  intros (Hi1 & Ha1 & Hd1 & Hm1) (Hi2 & Ha2 & Hd2 & Hm2). repeat split.
  - intros Hids. by rewrite Hi2, Hi1.
  - by etrans.
  - by etrans.
  - by etrans.
Qed.

Global Instance figures_le_preorder ids : PreOrder (figures_le ids).
Proof.
  split.
  - intros w l F HF. exists F. split; [done|apply Figure_le_refl].
  - intros w1 w2 w3 H12 H23 l F HF.
    destruct (H12 l F HF) as (F2 & HF2 & Hle2).
    destruct (H23 l F2 HF2) as (F3 & HF3 & Hle3).
    exists F3. split; [done|]. by eapply Figure_le_trans.
Qed.

Lemma figures_le_heap ids w w' : heap w' = heap w → figures_le ids w w'.
Proof. intros Heq l F HF. exists F. rewrite Heq. split; [done|apply Figure_le_refl]. Qed.

(** Overwriting a figure by a larger one. *)
Lemma figures_le_update ids w w' l F F' :
  heap w !! l = Some (OFigure F) → Figure_le ids F F' →
  heap w' = <[l := OFigure F']> (heap w) → figures_le ids w w'.
Proof.
  intros HF Hle Hheap l0 F0 HF0. rewrite Hheap.
  destruct (decide (l0 = l)) as [->|Hne].
  - rewrite lookup_insert_eq. exists F'. split; [done|]. congruence.
  - rewrite lookup_insert_ne by done. exists F0. split; [done|apply Figure_le_refl].
Qed.

(** Writing where no figure is. *)
Lemma figures_le_other ids w w' l o :
  (∀ F, heap w !! l ≠ Some (OFigure F)) →
  heap w' = <[l := o]> (heap w) → figures_le ids w w'.
Proof.
  intros Hl Hheap l0 F0 HF0. rewrite Hheap.
  destruct (decide (l0 = l)) as [->|Hne]; [by destruct (Hl F0)|].
  rewrite lookup_insert_ne by done. exists F0. split; [done|apply Figure_le_refl].
Qed.

Lemma Figure_addData_le ids fuel self data w :
  ∀ w', final (Figure_addData fuel self data w) = Some w' → figures_le ids w w'.
Proof.
  intros w'. destruct (Figure_addData fuel self data w) as [v w1|e w1| |] eqn:Hrun;
    simpl; intros [= <-].
  - apply Figure_addData_Return in Hrun
      as (b & F & k & _ & HF & _ & [[_ ->]|(_ & Hk & Hheap & _)]); [done|].
    eapply figures_le_update; [done| |done].
    repeat split; simpl; auto. by apply insert_subseteq.
  - by apply Figure_addData_Raise in Hrun as (_ & _ & ->).
Qed.

Lemma Figure_addMaterial_le ids self m w :
  ∀ w', final (Figure_addMaterial self m w) = Some w' → figures_le ids w w'.
Proof.
  intros w'. destruct (Figure_addMaterial self m w) as [v w1|e w1| |] eqn:Hrun;
    simpl; intros [= <-].
  - apply Figure_addMaterial_Return in Hrun
      as (lm & mat & F & _ & HF & _ & [[_ ->]|[_ ->]]); [done|].
    eapply figures_le_update; [done| |done].
    repeat split; simpl; auto. rewrite dom_insert_L. apply union_subseteq_r.
  - by apply Figure_addMaterial_Raise in Hrun as (_ & _ & ->).
Qed.

Lemma Axes_plot_le ids c mk fuel self vertex kwargs w :
  ∀ w', final (Axes_plot c mk fuel self vertex kwargs w) = Some w' → figures_le ids w w'.
Proof.
  intros w' Hfin. destruct (is_ndarray vertex w) as [b|] eqn:Hb.
  2:{ unfold Axes_plot in Hfin. rewrite Hb in Hfin. by injection Hfin as <-. }
  pose proof (Axes_plot_inv c mk fuel self vertex kwargs w (mk_is_Some _ _ Hb)) as Hinv.
  assert (∀ a f F k w1 lm w2, staged c fuel self vertex w a f F k w1 lm w2 →
            figures_le ids w w2) as Hstaged.
  { intros a f F k w1 lm w2 [_ Hdata -> ->]. etrans.
    - apply (Figure_addData_le ids fuel f vertex w). by rewrite Hdata.
    - eapply figures_le_other; [|done]. intros F0. by rewrite fresh_loc_None. }
  destruct (Axes_plot c mk fuel self vertex kwargs w) as [v w1|e w1| |];
    simpl in Hfin; try done; injection Hfin as ->.
  - destruct Hinv as (_ & a & f & F & k & w1 & lm & w2 & w3 & s & Hst & Hmat & Hs & Hheap & _).
    etrans; [by eapply Hstaged|]. etrans.
    { eapply (Figure_addMaterial_le ids f). by rewrite Hmat. }
    destruct (staged_heap _ _ _ _ _ _ _ _ _ _ _ _ Hst) as (b' & F2 & _ & Hax2 & HF2 & _).
    assert (heap w3 !! self = Some (OAxes a)) as Hax3.
    { apply Figure_addMaterial_Return in Hmat as (lm' & mat & F'' & _ & _ & _ & [[_ ->]|[_ ->]]);
        [done|]. simpl. rewrite lookup_insert_ne by congruence. done. }
    pose proof (fresh_loc_None w3) as Hfresh. rewrite <- Hs in Hfresh.
    etrans.
    + eapply (figures_le_other ids w3 (set_heap (<[s := mk _]> (heap w3)) w3)); [|done].
      intros F0. by rewrite Hfresh.
    + eapply figures_le_other; [|exact Hheap].
      intros F0. simpl. rewrite lookup_insert_ne by congruence. by rewrite Hax3.
  - destruct Hinv as (a & f & F & k & w1 & lm & w2 & Hst & -> & _). by eapply Hstaged.
Qed.

Lemma exec_le fuel c w w' :
  final (exec fuel c w) = Some w' → figures_le (negb (assigns_ID c)) w w'.
Proof.
  destruct c as [self data|self m|self kwargs|self value|self value|self value
                |self data|self m|self obj|self vertex kwargs|self vertex kwargs];
    simpl.
  - apply Figure_addData_le.
  - apply Figure_addMaterial_le.
  - destruct (Figure_addAxes self kwargs w) as [v w1|e w1| |] eqn:Hrun; simpl; intros [= <-].
    2:{ by apply Figure_addAxes_no_Raise in Hrun. }
    destruct (heap w !! self) as [[| |F| | |]|] eqn:Hself;
      try by (revert Hrun; unfold Figure_addAxes, Axes_init; unfold_M; simpl;
              destruct (decide (fresh (dom (heap w)) = self)) as [<-|?];
              [rewrite lookup_insert_eq|rewrite lookup_insert_ne, Hself by done]).
    destruct (Figure_addAxes_eq self F kwargs w Hself) as (ax & A & w2 & Hrun' & Hax & _ & Hheap & _).
    rewrite Hrun in Hrun'. injection Hrun' as _ <-.
    etrans.
    + eapply (figures_le_other _ w (set_heap (<[ax := OAxes A]> (heap w)) w)); [|done].
      intros F0. by rewrite Hax.
    + eapply figures_le_update; [|  |exact Hheap].
      * simpl. rewrite lookup_insert_ne by congruence. done.
      * repeat split; simpl; auto. by apply prefix_app_r.
  - unfold Figure_set_ID. unfold_M.
    destruct (heap w !! self) as [[| |F| | |]|] eqn:Hself; simpl; try done.
    intros [= <-]. eapply figures_le_update; [done| |done]. by repeat split.
  - by intros [= <-].
  - by intros [= <-].
  - rewrite Axes_addData_eq. destruct (owner_of w self) as [[[a f] F]|]; [|done].
    apply Figure_addData_le.
  - rewrite Axes_addMaterial_eq. destruct (owner_of w self) as [[[a f] F]|]; [|done].
    apply Figure_addMaterial_le.
  - unfold Axes_addRenderObject, append_renderObject. unfold_M.
    destruct (heap w !! self) as [[| | |a| |]|] eqn:Hself; simpl; try done.
    intros [= <-]. eapply figures_le_other; [|done]. intros F0. by rewrite Hself.
  - rewrite Axes_scatter_plot. apply Axes_plot_le.
  - rewrite Axes_surface_plot. apply Axes_plot_le.
Qed.

Lemma figures_le_weaken ids w w' : figures_le ids w w' → figures_le false w w'.
Proof.
  intros H l F HF. destruct (H l F HF) as (F' & HF' & _ & ? & ? & ?).
  exists F'. by repeat split.
Qed.

(** A script: the same, for the world in which it ends or raises. *)
Lemma run_le ids fuel cs : ∀ w w',
  (ids = true → forallb (λ c, negb (assigns_ID c)) cs = true) →
  final (run fuel cs w) = Some w' → figures_le ids w w'.
Proof.
  induction cs as [|c cs IH]; intros w w' Hids; simpl.
  - by intros [= <-].
  - unfold mbind at 1, M_bind at 1.
    assert (∀ w1, final (exec fuel c w) = Some w1 → figures_le ids w w1) as Hstep.
    { intros w1 Hfin%exec_le. destruct ids; [|by eapply figures_le_weaken].
      specialize (Hids eq_refl). simpl in Hids.
      apply andb_true_iff in Hids as [Hc _]. by rewrite Hc in Hfin. }
    destruct (exec fuel c w) as [v w1|e w1| |]; simpl; try done.
    2:{ intros [= <-]. by apply Hstep. }
    unfold mbind, M_bind. intros Hfin. etrans; [by apply Hstep|].
    apply IH.
    + intros ->. specialize (Hids eq_refl). simpl in Hids.
      by apply andb_true_iff in Hids as [_ ->].
    + by destruct (run fuel cs w1).
Qed.

Lemma Figure_init_eq w :
  ∃ l w', Figure_init w = Return l w' ∧ heap w !! l = None ∧
    heap w' !! l = Some (OFigure (MkFigure (VStr (uuid4 (uuid_calls w))) [] ∅ ∅)).
Proof.
  unfold Figure_init. unfold_M. simpl. eexists _, _. split; [done|].
  split; [apply (fresh_loc_None w)|]. simpl. apply lookup_insert_eq.
Qed.

(** C4 (amended). The ID of a figure.  [Figure.__init__] assigns the ID, a
    draw of the UUID source; a script of calls none of which assigns to the
    [ID] property leaves the ID of every figure as it was, whether the script
    ends or raises; an assignment to [ID] succeeds and replaces the ID by the
    value assigned. *)
Theorem C4_figure_ID_kept_unless_assigned fuel cs w w' l F :
  forallb (λ c, negb (assigns_ID c)) cs = true →
  final (run fuel cs w) = Some w' →
  heap w !! l = Some (OFigure F) →
  (∃ F', heap w' !! l = Some (OFigure F') ∧ fig_ID F' = fig_ID F) ∧
  (∀ value, ∃ w2, Figure_set_ID l value w = Return () w2 ∧
     heap w2 !! l = Some (OFigure (set_ID F value))) ∧
  (∀ w0, ∃ l0 w1, Figure_init w0 = Return l0 w1 ∧
     heap w1 !! l0 = Some (OFigure (MkFigure (VStr (uuid4 (uuid_calls w0))) [] ∅ ∅))).
Proof.
  intros Hcs Hfin HF. split; [|split].
  - destruct (run_le true fuel cs w w' (λ _, Hcs) Hfin l F HF) as (F' & HF' & Hid & _).
    exists F'. auto.
  - intros value. unfold Figure_set_ID. unfold_M. rewrite HF. eexists. split; [done|].
    simpl. by rewrite lookup_insert_eq.
  - intros w0. destruct (Figure_init_eq w0) as (l0 & w1 & ? & _ & ?). eauto.
Qed.

(** C9. Registries only grow.  Along any script of calls, when it ends or
    when it raises, every figure is still a figure, its data registry holds
    every entry it held, its material registry has every key it had, and
    neither registry has become smaller. *)
Theorem C9_registries_only_grow fuel cs w w' l F :
  final (run fuel cs w) = Some w' →
  heap w !! l = Some (OFigure F) →
  ∃ F', heap w' !! l = Some (OFigure F') ∧
    size (fig_dataDict F) ≤ size (fig_dataDict F') ∧
    size (fig_materialDict F) ≤ size (fig_materialDict F') ∧
    fig_dataDict F ⊆ fig_dataDict F' ∧
    dom (fig_materialDict F) ⊆ dom (fig_materialDict F').
Proof.
  intros Hfin HF.
  destruct (run_le false fuel cs w w' (λ H, False_ind _ (Bool.diff_false_true H)) Hfin l F HF)
    as (F' & HF' & _ & _ & Hdata & Hmat).
  exists F'. split; [done|]. split; [by apply map_subseteq_size|].
  split; [|done]. rewrite <- !size_dom. by apply subseteq_size.
Qed.

(** ** Many buffers *)

Lemma NoDup_Forall2_functional {A B} (R : A → B → Prop) (xs : list A) (ys : list B) :
  (∀ x x' y, R x y → R x' y → x = x') →
  Forall2 R xs ys → NoDup xs → NoDup ys.
Proof.
  intros Hfun. induction 1 as [|x y xs ys Hxy Hrest IH]; [constructor|].
  intros [Hx Hxs]%NoDup_cons. apply NoDup_cons. split; [|auto].
  intros Hy. apply list_elem_of_lookup in Hy as [i Hi].
  destruct (Forall2_lookup_r _ _ _ _ _ Hrest Hi) as (x' & Hx' & Hx'y).
  apply Hx. rewrite (Hfun x x' y Hxy Hx'y). by eapply list_elem_of_lookup_2.
Qed.

Lemma run_cons_Return fuel c cs w v w1 vs w2 :
  exec fuel c w = Return v w1 → run fuel cs w1 = Return vs w2 →
  run fuel (c :: cs) w = Return (v :: vs) w2.
Proof. intros Hc Hcs. simpl. unfold mbind, M_bind. by rewrite Hc, Hcs. Qed.

Lemma addData_script_runs fuel self bs : ∀ F w,
  Inj (=) (=) uuid4 → size (fig_dataDict F) + length bs ≤ fuel →
  heap w !! self = Some (OFigure F) →
  Forall (λ b, ∃ a, heap w !! b = Some (ONdarray a)) bs → NoDup bs →
  ∃ ids w' F',
    run fuel (addData_script self bs) w = Return (VStr <$> ids) w' ∧
    heap w' !! self = Some (OFigure F') ∧
    fig_dataDict F ⊆ fig_dataDict F' ∧
    Forall2 (λ b id, fig_dataDict F' !! id = Some b) bs ids ∧
    (∀ i b id, bs !! i = Some b → ids !! i = Some id →
       ¬ registered (fig_dataDict F) b → fig_dataDict F !! id = None).
Proof.
  induction bs as [|b bs IH]; intros F w Hinj Hfuel Hself Hbs Hnodup.
  - exists [], w, F. by repeat split.
  - apply Forall_cons in Hbs as [[a Hb] Hbs]. apply NoDup_cons in Hnodup as [Hb_bs Hnodup].
    simpl in Hfuel.
    destruct (Figure_addData_ok fuel self b a F w) as (k & w1 & F1 & Hrun & Hself1 & Hscan & Hcase);
      auto with lia.
    assert (self ≠ b) as Hsb by congruence.
    assert (fig_dataDict F ⊆ fig_dataDict F1 ∧
            size (fig_dataDict F1) ≤ S (size (fig_dataDict F)) ∧
            (¬ registered (fig_dataDict F) b → fig_dataDict F !! k = None) ∧
            (∀ b', b' ≠ b → ¬ registered (fig_dataDict F) b' → ¬ registered (fig_dataDict F1) b') ∧
            Forall (λ b, ∃ a, heap w1 !! b = Some (ONdarray a)) bs) as (Hsub & Hsize & Hnew & Hothers & Hbs1).
    { destruct Hcase as [[-> ->]|[Hadd ->]].
      - repeat split; auto with lia.
        intros Hnot. destruct Hnot. exists k. by apply scan_Some.
      - pose proof Hadd as (_ & Hk & _). simpl. repeat split.
        + by apply insert_subseteq.
        + rewrite map_size_insert_None by done. lia.
        + done.
        + intros b' Hne Hnot [k' Hk']. apply Hnot.
          destruct (decide (k' = k)) as [->|Hkk].
          * rewrite lookup_insert_eq in Hk'. congruence.
          * rewrite lookup_insert_ne in Hk' by done. by exists k'.
        + eapply Forall_impl; [exact Hbs|]. intros b' [a' Hb']. exists a'.
          rewrite (data_added_frame _ _ _ _ _ _ _ Hadd); [done|congruence]. }
    destruct (IH F1 w1) as (ids & w' & F' & Hruns & Hself' & Hsub' & Hall & Hfresh); auto with lia.
    exists (k :: ids), w', F'. split; [|split; [done|split; [by etrans|split]]].
    + by apply (run_cons_Return fuel _ _ w (VStr k) w1).
    + constructor; [|done].
      apply scan_Some in Hscan. by eapply lookup_weaken.
    + intros [|i] b' id; simpl.
      * intros [= <-] [= <-]. done.
      * intros Hb' Hid Hnot.
        assert (b' ≠ b) as Hne by (intros ->; apply Hb_bs; by eapply list_elem_of_lookup_2).
        eapply lookup_weaken_None; [|exact Hsub]. eapply Hfresh; eauto.
Qed.

(** C6. ID uniqueness.  [addData] called on N pairwise distinct ndarray
    objects, one after the other, returns N pairwise distinct IDs, each the
    key of its buffer in the data registry.  With draws of the UUID source
    that are pairwise distinct and fuel for as many retries as the registry
    can have keys, every call returns: a draw that collides with a key of
    the registry is replaced by a later draw, and the ID given to a buffer
    not yet registered is no key of the registry the script started from. *)
Theorem C6_addData_IDs_pairwise_distinct fuel self F bs w :
  Inj (=) (=) uuid4 → size (fig_dataDict F) + length bs ≤ fuel →
  heap w !! self = Some (OFigure F) →
  Forall (λ b, ∃ a, heap w !! b = Some (ONdarray a)) bs → NoDup bs →
  ∃ ids w' F',
    run fuel (addData_script self bs) w = Return (VStr <$> ids) w' ∧
    length ids = length bs ∧ NoDup ids ∧
    heap w' !! self = Some (OFigure F') ∧
    Forall2 (λ b id, fig_dataDict F' !! id = Some b) bs ids ∧
    (∀ i b id, bs !! i = Some b → ids !! i = Some id →
       ¬ registered (fig_dataDict F) b → fig_dataDict F !! id = None).
Proof.
  intros Hinj Hfuel Hself Hbs Hnodup.
  destruct (addData_script_runs fuel self bs F w) as (ids & w' & F' & Hrun & Hself' & _ & Hall & Hfresh);
    auto.
  exists ids, w', F'. split; [done|]. split; [symmetry; by eapply Forall2_length|].
  split; [|done].
  eapply NoDup_Forall2_functional; [|exact Hall|done].
  intros x x' y. simpl. congruence.
Qed.

(** ** The render pass *)

Lemma str_app_assoc (s1 s2 s3 : string) : (s1 ++ s2) ++ s3 = s1 ++ s2 ++ s3.
Proof.
  induction s1 as [|c s1 IH]; [done|].
  change (String c ((s1 ++ s2) ++ s3) = String c (s1 ++ s2 ++ s3)). by f_equal.
Qed.

Lemma str_join_app (l1 l2 : list string) :
  str_join (l1 ++ l2)%list = str_join l1 ++ str_join l2.
Proof. induction l1 as [|s l1 IH]; simpl; [done|]. by rewrite IH, str_app_assoc. Qed.

(** A fragment at position [i] and one at a later position [j] split the
    joined text in this order. *)
Lemma str_join_split (frags : list string) i j r1 r2 :
  i < j → frags !! i = Some r1 → frags !! j = Some r2 →
  ∃ pre mid post, str_join frags = pre ++ r1 ++ mid ++ r2 ++ post.
Proof.
  intros Hij Hi Hj.
  rewrite <- (take_drop_middle frags i r1 Hi).
  assert (drop (S i) frags !! (j - S i) = Some r2) as Hj'.
  { rewrite lookup_drop. by replace (S i + (j - S i)) with j by lia. }
  rewrite <- (take_drop_middle (drop (S i) frags) (j - S i) r2 Hj').
  exists (str_join (take i frags)),
         (str_join (take (j - S i) (drop (S i) frags))),
         (str_join (drop (S (j - S i)) (drop (S i) frags))).
  rewrite str_join_app. simpl. rewrite str_join_app. simpl. done.
Qed.

(** The loop that fills a dictionary of descriptions computes, key by key,
    the description of the registered object. *)
Lemma render_items_Some f items : ∀ out,
  Forall (λ kv, is_Some (f kv.2)) items → NoDup items.*1 →
  ∃ res, render_items f items out = Some res ∧
    ∀ k, res !! k = match (list_to_map items : gmap string loc) !! k with
                    | Some v => f v
                    | None => out !! k
                    end.
Proof.
  induction items as [|[k0 v0] rest IH]; intros out Hall Hnodup; simpl.
  - exists out. split; [done|]. intros k. by rewrite lookup_empty.
  - apply Forall_cons in Hall as [[s0 Hs0] Hall].
    apply NoDup_cons in Hnodup as [Hk0 Hnodup]. simpl in *.
    rewrite Hs0. simpl.
    destruct (IH (<[k0 := s0]> out) Hall Hnodup) as (res & Hres & Hlook).
    exists res. split; [done|]. intros k. rewrite Hlook.
    destruct (decide (k = k0)) as [->|Hne].
    + rewrite lookup_insert_eq.
      by rewrite (not_elem_of_list_to_map_1 rest k0 Hk0), lookup_insert_eq.
    + by rewrite !lookup_insert_ne by done.
Qed.

Lemma render_dict f (d : gmap string loc) :
  map_Forall (λ _ l, is_Some (f l)) d →
  render_items f (map_to_list d) ∅ = Some (omap f d).
Proof.
  intros Hall.
  destruct (render_items_Some f (map_to_list d) ∅) as (res & Hres & Hlook).
  - apply Forall_forall. intros [k l] Hkl%elem_of_map_to_list. by apply (Hall k l).
  - apply NoDup_fst_map_to_list.
  - rewrite Hres. f_equal. apply map_eq. intros k.
    rewrite Hlook, list_to_map_to_list, lookup_omap.
    destruct (d !! k); [done|]. by rewrite lookup_empty.
Qed.

Lemma forallb_elem {A} (f : A → bool) (l : list A) x :
  forallb f l = true → x ∈ l → f x = true.
Proof. intros H Hx. eapply forallb_forall; [exact H|by apply list_elem_of_In]. Qed.

Lemma renderable_renders w obj : renderable w obj = true → is_Some (render_object w obj).
Proof.
  unfold renderable, render_object, RenderObject_render.
  destruct obj as [| | | | | |l]; try done.
  destruct (heap w !! l) as [[| | | |r|r]|]; try done;
    intros [[lm m] ->]%bool_decide_eq_true; by eexists.
Qed.

Lemma axes_ok_renders w ax : axes_ok w ax = true → is_Some (Axes_render w ax).
Proof.
  unfold axes_ok, Axes_render. destruct (heap w !! ax) as [[| | |a| |]|]; try done.
  intros Hall. destruct (mapM (render_object w) (ax_renderObjects a)) as [objs|] eqn:Hobjs.
  - by eexists.
  - assert (is_Some (mapM (render_object w) (ax_renderObjects a))) as [? ?]; [|congruence].
    apply mapM_is_Some, Forall_forall. intros obj Hobj. apply renderable_renders.
    by eapply forallb_elem.
Qed.

Lemma scene_ok_head w F :
  scene_ok w F = true →
  Figure_render_head w F =
    Some [js_datasource (omap (data_json w) (fig_dataDict F));
          js_materials (omap (material_js w) (fig_materialDict F));
          js_figure (fig_ID F)].
Proof.
  unfold scene_ok. intros [[Hdata Hmat]%andb_true_iff _]%andb_true_iff.
  unfold Figure_render_head. rewrite !render_dict; [done| |].
  - intros k l Hkl%elem_of_map_to_list.
    pose proof (forallb_elem _ _ _ Hdata Hkl) as [l' Hb]%bool_decide_eq_true.
    apply is_ndarray_Some in Hb as [[= <-] [a Ha]]. unfold data_json. simpl in Ha. by rewrite Ha.
  - intros k l Hkl%elem_of_map_to_list.
    pose proof (forallb_elem _ _ _ Hmat Hkl) as [[l' m] Hm]%bool_decide_eq_true.
    apply is_Material_Some in Hm as [[= <-] Hm]. unfold material_js. simpl in Hm. by rewrite Hm.
Qed.

(** ** Scenes built through the interface *)

Lemma same_kind_refl o : same_kind o o.
Proof. by destruct o. Qed.

Lemma stable_insert w w' l o' :
  heap w' = <[l := o']> (heap w) →
  (∀ o, heap w !! l = Some o → same_kind o o') → stable w w'.
Proof.
  intros Hheap Hkind l0 o0 Ho0. rewrite Hheap.
  destruct (decide (l0 = l)) as [->|Hne].
  - rewrite lookup_insert_eq. exists o'. auto.
  - rewrite lookup_insert_ne by done. exists o0. split; [done|apply same_kind_refl].
Qed.

Lemma stable_Material w w' v x : stable w w' → is_Material v w = Some x → is_Material v w' = Some x.
Proof.
  intros Hst. destruct x as [m mat]. intros [-> Hm]%is_Material_Some.
  destruct (Hst m _ Hm) as (o' & Ho' & ->). simpl. by rewrite Ho'.
Qed.

Lemma stable_renderable w w' obj : stable w w' → renderable w obj = true → renderable w' obj = true.
Proof.
  intros Hst. unfold renderable. destruct obj as [| | | | | |l]; try done.
  destruct (heap w !! l) as [[| | | |r|r]|] eqn:Hl; try done;
    destruct (Hst l _ Hl) as (o' & -> & ->);
    intros [[m mat] Hm]%bool_decide_eq_true; apply bool_decide_eq_true;
    exists (m, mat); by eapply stable_Material.
Qed.

Lemma obj_inv_mono w w' o : stable w w' → obj_inv w o → obj_inv w' o.
Proof.
  intros Hst. destruct o as [| |F|a| |]; simpl; try done.
  - intros (Hdata & Hmat & Hax). repeat split.
    + intros k b Hb. destruct (Hdata k b Hb) as [arr Harr].
      destruct (Hst b _ Harr) as (o' & Ho' & ->). eauto.
    + intros k m Hm. destruct (Hmat k m Hm) as [mat Hmat'].
      destruct (Hst m _ Hmat') as (o' & Ho' & ->). eauto.
    + intros ax Hin. destruct (Hax ax Hin) as [a Ha].
      destruct (Hst ax _ Ha) as ([| | |a'| |] & Ho' & Hk); try done. eauto.
  - intros Hobjs obj Hin. eapply stable_renderable; eauto.
Qed.

(** One write to the store keeps the invariant, when it respects kinds and
    the object written satisfies its own invariant afterwards. *)
Lemma inv_insert w w' l o' :
  inv w → heap w' = <[l := o']> (heap w) →
  (∀ o, heap w !! l = Some o → same_kind o o') →
  (stable w w' → obj_inv w' o') → inv w'.
Proof.
  intros Hinv Hheap Hkind Hobj.
  pose proof (stable_insert w w' l o' Hheap Hkind) as Hst.
  intros l0 o0. rewrite Hheap. destruct (decide (l0 = l)) as [->|Hne].
  - rewrite lookup_insert_eq. intros [= <-]. auto.
  - rewrite lookup_insert_ne by done. intros Ho0.
    eapply obj_inv_mono; [done|]. by eapply Hinv.
Qed.

Lemma inv_heap w w' : heap w' = heap w → inv w → inv w'.
Proof.
  intros Heq Hinv l o Ho. rewrite Heq in Ho.
  eapply obj_inv_mono; [|by eapply Hinv].
  intros l0 o0 Ho0. exists o0. rewrite Heq. split; [done|apply same_kind_refl].
Qed.

Lemma inv_alloc w w' l o' :
  inv w → heap w !! l = None → heap w' = <[l := o']> (heap w) →
  (stable w w' → obj_inv w' o') → inv w'.
Proof.
  intros Hinv Hl Hheap Hobj. eapply inv_insert; eauto.
  intros o Ho. congruence.
Qed.

Lemma Figure_addData_inv fuel self data w w' :
  inv w → final (Figure_addData fuel self data w) = Some w' → inv w'.
Proof.
  intros Hinv. destruct (Figure_addData fuel self data w) as [v w1|e w1| |] eqn:Hrun;
    simpl; intros [= <-].
  - apply Figure_addData_Return in Hrun
      as (b & F & k & Hb & HF & _ & [[_ ->]|(_ & Hk & Hheap & _)]); [done|].
    apply is_ndarray_Some in Hb as [-> [arr Harr]].
    eapply inv_insert; [done|exact Hheap| |].
    + intros o Ho. rewrite HF in Ho. by injection Ho as <-.
    + intros Hst.
      pose proof (obj_inv_mono _ _ _ Hst (Hinv self _ HF)) as (Hdata & Hmat & Hax).
      repeat split; simpl; auto.
      intros k' b'. destruct (decide (k' = k)) as [->|Hne].
      * rewrite lookup_insert_eq. intros [= <-]. exists arr.
        rewrite Hheap, lookup_insert_ne by congruence. done.
      * rewrite lookup_insert_ne by done. apply Hdata.
  - by apply Figure_addData_Raise in Hrun as (_ & _ & ->).
Qed.

Lemma Figure_addMaterial_inv self m w w' :
  inv w → final (Figure_addMaterial self m w) = Some w' → inv w'.
Proof.
  intros Hinv. destruct (Figure_addMaterial self m w) as [v w1|e w1| |] eqn:Hrun;
    simpl; intros [= <-].
  - apply Figure_addMaterial_Return in Hrun
      as (lm & mat & F & HM & HF & _ & [[_ ->]|[_ ->]]); [done|].
    apply is_Material_Some in HM as [-> Hlm].
    eapply inv_insert; [done|done| |].
    + intros o Ho. rewrite HF in Ho. by injection Ho as <-.
    + intros Hst.
      pose proof (obj_inv_mono _ _ _ Hst (Hinv self _ HF)) as (Hdata & Hmat & Hax).
      repeat split; simpl; auto.
      intros k' m'. destruct (decide (k' = mat_ID mat)) as [->|Hne].
      * rewrite lookup_insert_eq. intros [= <-]. exists mat.
        rewrite lookup_insert_ne by congruence. done.
      * rewrite lookup_insert_ne by done. apply Hmat.
  - by apply Figure_addMaterial_Raise in Hrun as (_ & _ & ->).
Qed.

Lemma Axes_plot_inv_kept c mk fuel self vertex kwargs w w' :
  (mk = OScatter ∨ mk = OSurface) →
  inv w → final (Axes_plot c mk fuel self vertex kwargs w) = Some w' → inv w'.
Proof.
  intros Hmk Hinv Hfin. destruct (is_ndarray vertex w) as [b|] eqn:Hb.
  2:{ unfold Axes_plot in Hfin. rewrite Hb in Hfin. by injection Hfin as <-. }
  pose proof (Axes_plot_inv c mk fuel self vertex kwargs w (mk_is_Some _ _ Hb)) as Hinv'.
  assert (∀ a f F k w1 lm w2, staged c fuel self vertex w a f F k w1 lm w2 → inv w2) as Hstaged.
  { intros a f F k w1 lm w2 [_ Hdata -> ->].
    assert (inv w1) as Hinv1 by (eapply Figure_addData_inv; [done|by rewrite Hdata]).
    eapply inv_alloc; [exact Hinv1|apply fresh_loc_None|done|done]. }
  destruct (Axes_plot c mk fuel self vertex kwargs w) as [v w1|e w1| |];
    simpl in Hfin; try done; injection Hfin as ->.
  2:{ destruct Hinv' as (a & f & F & k & w1 & lm & w2 & Hst & -> & _). by eapply Hstaged. }
  destruct Hinv' as (_ & a & f & F & k & w1 & lm & w2 & w3 & s & Hst & Hmat & Hs & Hheap & _).
  assert (inv w3) as Hinv3.
  { eapply Figure_addMaterial_inv; [by eapply Hstaged|by rewrite Hmat]. }
  destruct (staged_heap _ _ _ _ _ _ _ _ _ _ _ _ Hst) as (b' & F2 & _ & Hax2 & HF2 & _).
  pose proof Hmat as (lm' & mat & F3 & HM & _ & Hv & Hcase)%Figure_addMaterial_Return.
  assert (heap w3 !! self = Some (OAxes a) ∧ stable w2 w3) as [Hax3 Hst23].
  { destruct Hcase as [[_ ->]|[_ ->]].
    - split; [done|]. intros l o Ho. exists o. split; [done|apply same_kind_refl].
    - split; [simpl; by rewrite lookup_insert_ne by congruence|].
      eapply stable_insert; [done|]. intros o Ho.
      apply is_Material_Some in HM as [_ HM]. rewrite Ho in *. destruct o; try done;
        by (simpl in *; congruence). }
  pose proof (fresh_loc_None w3) as Hfresh. rewrite <- Hs in Hfresh.
  assert (s ≠ self) as Hne by congruence.
  set (r := MkRenderObject self (VStr k) (pop_default kwargs "material" (VRef lm))) in *.
  set (w4 := set_heap (<[s := mk r]> (heap w3)) w3).
  assert (inv w4) as Hinv4.
  { eapply (inv_alloc w3 w4); [done|done|done|]. intros _. by destruct Hmk as [-> | ->]. }
  assert (stable w3 w4) as Hst34.
  { eapply stable_insert; [done|]. intros o Ho. congruence. }
  eapply (inv_insert w4 w'); [done|exact Hheap| |].
  - intros o. simpl. rewrite lookup_insert_ne by done. rewrite Hax3. by intros [= <-].
  - intros Hst4. simpl. intros obj [Hobj| ->%list_elem_of_singleton]%elem_of_app.
    + eapply stable_renderable; [done|]. eapply stable_renderable; [exact Hst34|].
      by eapply (Hinv3 self (OAxes a)).
    + assert (is_Material (ro_material r) w' = Some (lm', mat)) as HM'.
      { eapply stable_Material; [exact Hst4|]. eapply stable_Material; [exact Hst34|].
        eapply stable_Material; [exact Hst23|done]. }
      unfold renderable. rewrite Hheap, lookup_insert_ne, lookup_insert_eq by done.
      destruct Hmk as [-> | ->]; apply bool_decide_eq_true; by eexists.
Qed.

Lemma exec_inv fuel c w w' :
  validated c = true → inv w → final (exec fuel c w) = Some w' → inv w'.
Proof.
  destruct c as [self data|self m|self kwargs|self value|self value|self value
                |self data|self m|self obj|self vertex kwargs|self vertex kwargs];
    simpl; intros Hval Hinv; try done.
  - by apply Figure_addData_inv.
  - by apply Figure_addMaterial_inv.
  - destruct (Figure_addAxes self kwargs w) as [v wa|e wa| |] eqn:Hrun; simpl; intros [= ->].
    2:{ by apply Figure_addAxes_no_Raise in Hrun. }
    destruct (heap w !! self) as [[| |F| | |]|] eqn:Hself;
      try by (revert Hrun; unfold Figure_addAxes, Axes_init; unfold_M; simpl;
              destruct (decide (fresh (dom (heap w)) = self)) as [<-|?];
              [rewrite lookup_insert_eq|rewrite lookup_insert_ne, Hself by done]).
    destruct (Figure_addAxes_eq self F kwargs w Hself) as (ax & A & w2 & Hrun' & Hax & -> & Hheap & _).
    rewrite Hrun in Hrun'. injection Hrun' as _ <-.
    set (A := MkAxes _ _ _) in *.
    set (w1 := set_heap (<[ax := OAxes A]> (heap w)) w).
    assert (inv w1) as Hinv1.
    { eapply (inv_alloc w w1); [done|done|done|]. intros _ obj Hobj. by inversion Hobj. }
    assert (ax ≠ self) as Hne by congruence.
    eapply (inv_insert w1 w'); [done|exact Hheap| |].
    + intros o. simpl. rewrite lookup_insert_ne by done. rewrite Hself. by intros [= <-].
    + intros Hst.
      assert (heap w1 !! self = Some (OFigure F)) as Hself1
        by (simpl; by rewrite lookup_insert_ne).
      pose proof (obj_inv_mono _ _ _ Hst (Hinv1 self _ Hself1)) as (Hdata & Hmat & Haxes).
      repeat split; simpl; auto.
      intros ax' [Hin| ->%list_elem_of_singleton]%elem_of_app; [by apply Haxes|].
      exists A. rewrite Hheap, lookup_insert_ne, lookup_insert_eq by done. done.
  - unfold Figure_set_ID. unfold_M.
    destruct (heap w !! self) as [[| |F| | |]|] eqn:Hself; simpl; try done.
    intros [= <-]. eapply inv_insert; [done|done| |].
    + intros o Ho. rewrite Hself in Ho. by injection Ho as <-.
    + intros Hst. apply (obj_inv_mono _ _ _ Hst (Hinv self _ Hself)).
  - by intros [= <-].
  - by intros [= <-].
  - rewrite Axes_addData_eq. destruct (owner_of w self) as [[[a f] F]|]; [|done].
    by apply Figure_addData_inv.
  - rewrite Axes_addMaterial_eq. destruct (owner_of w self) as [[[a f] F]|]; [|done].
    by apply Figure_addMaterial_inv.
  - rewrite Axes_scatter_plot. apply Axes_plot_inv_kept; auto.
  - rewrite Axes_surface_plot. apply Axes_plot_inv_kept; auto.
Qed.

Lemma run_inv fuel cs : ∀ w w',
  forallb validated cs = true → inv w → final (run fuel cs w) = Some w' → inv w'.
Proof.
  induction cs as [|c cs IH]; intros w w'; simpl.
  - by intros _ Hinv [= <-].
  - intros [Hc Hcs]%andb_true_iff Hinv. unfold mbind at 1, M_bind at 1.
    pose proof (exec_inv fuel c w) as Hstep.
    destruct (exec fuel c w) as [v w1|e w1| |]; simpl; try done.
    2:{ intros [= <-]. by apply Hstep. }
    unfold mbind, M_bind. intros Hfin. apply (IH w1); [done|by apply Hstep|].
    by destruct (run fuel cs w1).
Qed.

Lemma Figure_init_inv w l w' : inv w → Figure_init w = Return l w' → inv w'.
Proof.
  intros Hinv. unfold Figure_init. unfold_M. simpl. intros [= <- <-].
  eapply inv_alloc; [done|apply (fresh_loc_None w)|done|].
  intros _. repeat split; simpl.
  - intros k b. by rewrite lookup_empty.
  - intros k m. by rewrite lookup_empty.
  - intros ax Hin. by inversion Hin.
Qed.

(** Under the invariant every figure is fit for a render pass. *)
Lemma inv_scene_ok w l F : inv w → heap w !! l = Some (OFigure F) → scene_ok w F = true.
Proof.
  intros Hinv HF. destruct (Hinv l _ HF) as (Hdata & Hmat & Haxes).
  unfold scene_ok. rewrite !andb_true_iff. repeat split.
  - apply forallb_forall. intros [k b] Hkb%list_elem_of_In%elem_of_map_to_list.
    destruct (Hdata k b Hkb) as [a Ha]. apply bool_decide_eq_true. simpl. by rewrite Ha.
  - apply forallb_forall. intros [k m] Hkm%list_elem_of_In%elem_of_map_to_list.
    destruct (Hmat k m Hkm) as [mat Hm]. apply bool_decide_eq_true. simpl. by rewrite Hm.
  - apply forallb_forall. intros ax Hin%list_elem_of_In.
    destruct (Haxes ax Hin) as [a Ha]. unfold axes_ok. rewrite Ha.
    apply forallb_forall. intros obj Hobj%list_elem_of_In.
    by apply (Hinv ax (OAxes a)).
Qed.

(** A scene built by [Figure()] and then any script of validated calls, in
    a store that had the invariant (arrays and materials only, say), is fit
    for a render pass. *)
Lemma built_scene_ok fuel cs w0 self w1 w F :
  inv w0 → Figure_init w0 = Return self w1 →
  forallb validated cs = true → final (run fuel cs w1) = Some w →
  heap w !! self = Some (OFigure F) → scene_ok w F = true.
Proof.
  intros Hinv0 Hinit Hcs Hrun HF.
  eapply inv_scene_ok; [|exact HF].
  eapply run_inv; [exact Hcs| |exact Hrun]. by eapply Figure_init_inv.
Qed.

(** C5. Render ordering.  For a figure whose registries hold ndarrays and
    Materials and whose axes hold Scatter and Surface objects (the scenes
    built through the interface, [built_scene_ok]),
    [Figure.render()] returns the text made of, in this order: the
    data-source template applied to the dictionary that maps every data ID
    to the encoding of its buffer, the materials template applied to the
    dictionary that maps every material ID to the rendering of its material,
    the figure template applied to the figure ID, and the texts
    [Axes.render()] gives for the axes, in the order of the axes list.  So
    the text of an axes at an earlier position lies wholly before the text
    of an axes at a later position. *)
Theorem C5_render_order w self F :
  heap w !! self = Some (OFigure F) → scene_ok w F = true →
  ∃ frags,
    Forall2 (λ ax frag, Axes_render w ax = Some frag) (fig_axes F) frags ∧
    Figure_render w self =
      Some (js_datasource (omap (data_json w) (fig_dataDict F)) ++
            js_materials (omap (material_js w) (fig_materialDict F)) ++
            js_figure (fig_ID F) ++
            str_join frags) ∧
    (∀ k l, fig_dataDict F !! k = Some l →
       ∃ a, heap w !! l = Some (ONdarray a) ∧
            omap (data_json w) (fig_dataDict F) !! k = Some (toJson a)) ∧
    (∀ k l, fig_materialDict F !! k = Some l →
       ∃ m, heap w !! l = Some (OMaterial m) ∧
            omap (material_js w) (fig_materialDict F) !! k = Some (Material_render m)) ∧
    (∀ i j A1 A2, i < j → fig_axes F !! i = Some A1 → fig_axes F !! j = Some A2 →
       ∃ r1 r2 pre mid post,
         Axes_render w A1 = Some r1 ∧ Axes_render w A2 = Some r2 ∧
         Figure_render w self = Some (pre ++ r1 ++ mid ++ r2 ++ post)).
Proof.
  intros Hself Hok. pose proof (scene_ok_head w F Hok) as Hhead.
  pose proof Hok as [[Hdata Hmat]%andb_true_iff Haxes]%andb_true_iff.
  assert (is_Some (mapM (Axes_render w) (fig_axes F))) as [frags Hfrags].
  { apply mapM_is_Some, Forall_forall. intros ax Hax. apply axes_ok_renders.
    by eapply forallb_elem. }
  assert (Figure_render w self =
            Some (js_datasource (omap (data_json w) (fig_dataDict F)) ++
                  js_materials (omap (material_js w) (fig_materialDict F)) ++
                  js_figure (fig_ID F) ++ str_join frags)) as Hrender.
  { unfold Figure_render. rewrite Hself, Hhead. simpl. by rewrite Hfrags. }
  apply mapM_Some in Hfrags.
  exists frags. split; [done|]. split; [done|]. split; [|split].
  - intros k l Hkl. pose proof Hkl as Hin%elem_of_map_to_list.
    pose proof (forallb_elem _ _ _ Hdata Hin) as [l' Hb]%bool_decide_eq_true.
    apply is_ndarray_Some in Hb as [[= <-] [a Ha]]. simpl in Ha. exists a. split; [done|].
    rewrite lookup_omap, Hkl. simpl. unfold data_json. by rewrite Ha.
  - intros k l Hkl. pose proof Hkl as Hin%elem_of_map_to_list.
    pose proof (forallb_elem _ _ _ Hmat Hin) as [[l' m] Hm]%bool_decide_eq_true.
    apply is_Material_Some in Hm as [[= <-] Hm]. simpl in Hm. exists m. split; [done|].
    rewrite lookup_omap, Hkl. simpl. unfold material_js. by rewrite Hm.
  - intros i j A1 A2 Hij H1 H2.
    destruct (Forall2_lookup_l _ _ _ _ _ Hfrags H1) as (r1 & Hr1 & Hrender1).
    destruct (Forall2_lookup_l _ _ _ _ _ Hfrags H2) as (r2 & Hr2 & Hrender2).
    destruct (str_join_split frags i j r1 r2 Hij Hr1 Hr2) as (pre & mid & post & Hsplit).
    exists r1, r2,
      (js_datasource (omap (data_json w) (fig_dataDict F)) ++
       js_materials (omap (material_js w) (fig_materialDict F)) ++
       js_figure (fig_ID F) ++ pre), mid, post.
    split; [done|]. split; [done|]. rewrite Hrender, Hsplit.
    by rewrite !str_app_assoc.
Qed.

(** ** The postcondition of [scatter] and [surface] *)


(** ** The store along calls *)

Lemma Axes_le_refl a : Axes_le a a.
Proof. by repeat split. Qed.

Lemma obj_le_refl o : obj_le o o.
Proof. by destruct o. Qed.

Lemma obj_le_trans o1 o2 o3 : obj_le o1 o2 → obj_le o2 o3 → obj_le o1 o3.
Proof.
  destruct o1, o2; simpl; try done; try (by intros [= <-]); try (by intros ->).
  - destruct o3; simpl; try done. apply Figure_le_trans.
  - destruct o3; simpl; try done.
    intros (Hf1 & Hp1 & Hr1) (Hf2 & Hp2 & Hr2). repeat split; [congruence|congruence|by etrans].
Qed.

Global Instance store_le_preorder : PreOrder store_le.
Proof.
  split.
  - intros w l o Ho. exists o. split; [done|apply obj_le_refl].
  - intros w1 w2 w3 H12 H23 l o Ho.
    destruct (H12 l o Ho) as (o2 & Ho2 & Hle2).
    destruct (H23 l o2 Ho2) as (o3 & Ho3 & Hle3).
    exists o3. split; [done|]. by eapply obj_le_trans.
Qed.

Lemma store_le_heap w w' : heap w' = heap w → store_le w w'.
Proof. intros Heq l o Ho. exists o. rewrite Heq. split; [done|apply obj_le_refl]. Qed.

(** One write: over an object it extends, or at a new location. *)
Lemma store_le_insert w w' l o' :
  heap w' = <[l := o']> (heap w) →
  (∀ o, heap w !! l = Some o → obj_le o o') → store_le w w'.
Proof.
  intros Hheap Hle l0 o0 Ho0. rewrite Hheap.
  destruct (decide (l0 = l)) as [->|Hne].
  - rewrite lookup_insert_eq. exists o'. auto.
  - rewrite lookup_insert_ne by done. exists o0. split; [done|apply obj_le_refl].
Qed.

Lemma store_le_alloc w w' l o' :
  heap w !! l = None → heap w' = <[l := o']> (heap w) → store_le w w'.
Proof. intros Hl Hheap. eapply store_le_insert; [done|]. intros o Ho. congruence. Qed.

Lemma Figure_addData_store_le fuel self data w w' :
  final (Figure_addData fuel self data w) = Some w' → store_le w w'.
Proof.
  destruct (Figure_addData fuel self data w) as [v w1|e w1| |] eqn:Hrun;
    simpl; intros [= <-].
  - apply Figure_addData_Return in Hrun
      as (b & F & k & _ & HF & _ & [[_ ->]|(_ & Hk & Hheap & _)]); [done|].
    eapply store_le_insert; [exact Hheap|]. intros o Ho. rewrite HF in Ho.
    injection Ho as <-. simpl. repeat split; simpl; auto. by apply insert_subseteq.
  - by apply Figure_addData_Raise in Hrun as (_ & _ & ->).
Qed.

Lemma Figure_addMaterial_store_le self m w w' :
  final (Figure_addMaterial self m w) = Some w' → store_le w w'.
Proof.
  destruct (Figure_addMaterial self m w) as [v w1|e w1| |] eqn:Hrun;
    simpl; intros [= <-].
  - apply Figure_addMaterial_Return in Hrun
      as (lm & mat & F & _ & HF & _ & [[_ ->]|[_ ->]]); [done|].
    eapply store_le_insert; [done|]. intros o Ho. rewrite HF in Ho.
    injection Ho as <-. simpl. repeat split; simpl; auto.
    rewrite dom_insert_L. apply union_subseteq_r.
  - by apply Figure_addMaterial_Raise in Hrun as (_ & _ & ->).
Qed.

Lemma Axes_plot_store_le c mk fuel self vertex kwargs w w' :
  final (Axes_plot c mk fuel self vertex kwargs w) = Some w' → store_le w w'.
Proof.
  intros Hfin. destruct (is_ndarray vertex w) as [b|] eqn:Hb.
  2:{ unfold Axes_plot in Hfin. rewrite Hb in Hfin. by injection Hfin as <-. }
  pose proof (Axes_plot_inv c mk fuel self vertex kwargs w (mk_is_Some _ _ Hb)) as Hinv.
  assert (∀ a f F k w1 lm w2, staged c fuel self vertex w a f F k w1 lm w2 →
            store_le w w2) as Hstaged.
  { intros a f F k w1 lm w2 [_ Hdata -> ->]. etrans.
    - apply (Figure_addData_store_le fuel f vertex w). by rewrite Hdata.
    - eapply store_le_alloc; [apply fresh_loc_None|done]. }
  destruct (Axes_plot c mk fuel self vertex kwargs w) as [v w1|e w1| |];
    simpl in Hfin; try done; injection Hfin as ->.
  - destruct Hinv as (_ & a & f & F & k & w1 & lm & w2 & w3 & s & Hst & Hmat & Hs & Hheap & _).
    etrans; [by eapply Hstaged|]. etrans.
    { eapply (Figure_addMaterial_store_le f). by rewrite Hmat. }
    destruct (staged_heap _ _ _ _ _ _ _ _ _ _ _ _ Hst) as (b' & F2 & _ & Hax2 & HF2 & _).
    assert (heap w3 !! self = Some (OAxes a)) as Hax3.
    { apply Figure_addMaterial_Return in Hmat as (lm' & mat & F'' & _ & _ & _ & [[_ ->]|[_ ->]]);
        [done|]. simpl. rewrite lookup_insert_ne by congruence. done. }
    pose proof (fresh_loc_None w3) as Hfresh. rewrite <- Hs in Hfresh.
    etrans.
    + by eapply (store_le_alloc w3 (set_heap (<[s := mk _]> (heap w3)) w3)).
    + eapply store_le_insert; [exact Hheap|].
      intros o. simpl. rewrite lookup_insert_ne by congruence. rewrite Hax3.
      intros [= <-]. simpl. repeat split. by apply prefix_app_r.
  - destruct Hinv as (a & f & F & k & w1 & lm & w2 & Hst & -> & _). by eapply Hstaged.
Qed.

Lemma exec_store_le fuel c w w' :
  final (exec fuel c w) = Some w' → store_le w w'.
Proof.
  destruct c as [self data|self m|self kwargs|self value|self value|self value
                |self data|self m|self obj|self vertex kwargs|self vertex kwargs];
    simpl.
  - apply Figure_addData_store_le.
  - apply Figure_addMaterial_store_le.
  - destruct (Figure_addAxes self kwargs w) as [v wa|e wa| |] eqn:Hrun; simpl; intros [= ->].
    2:{ by apply Figure_addAxes_no_Raise in Hrun. }
    destruct (heap w !! self) as [[| |F| | |]|] eqn:Hself;
      try by (revert Hrun; unfold Figure_addAxes, Axes_init; unfold_M; simpl;
              destruct (decide (fresh (dom (heap w)) = self)) as [<-|?];
              [rewrite lookup_insert_eq|rewrite lookup_insert_ne, Hself by done]).
    destruct (Figure_addAxes_eq self F kwargs w Hself) as (ax & A & w2 & Hrun' & Hax & _ & Hheap & _).
    rewrite Hrun in Hrun'. injection Hrun' as _ <-.
    etrans.
    + by eapply (store_le_alloc w (set_heap (<[ax := OAxes A]> (heap w)) w)).
    + eapply store_le_insert; [exact Hheap|].
      intros o. simpl. rewrite lookup_insert_ne by congruence. rewrite Hself.
      intros [= <-]. simpl. repeat split; simpl; auto. by apply prefix_app_r.
  - unfold Figure_set_ID. unfold_M.
    destruct (heap w !! self) as [[| |F| | |]|] eqn:Hself; simpl; try done.
    intros [= <-]. eapply store_le_insert; [done|].
    intros o Ho. rewrite Hself in Ho. injection Ho as <-. by repeat split.
  - by intros [= <-].
  - by intros [= <-].
  - rewrite Axes_addData_eq. destruct (owner_of w self) as [[[a f] F]|]; [|done].
    apply Figure_addData_store_le.
  - rewrite Axes_addMaterial_eq. destruct (owner_of w self) as [[[a f] F]|]; [|done].
    apply Figure_addMaterial_store_le.
  - unfold Axes_addRenderObject, append_renderObject. unfold_M.
    destruct (heap w !! self) as [[| | |a| |]|] eqn:Hself; simpl; try done.
    intros [= <-]. eapply store_le_insert; [done|].
    intros o Ho. rewrite Hself in Ho. injection Ho as <-. simpl.
    repeat split. by apply prefix_app_r.
  - rewrite Axes_scatter_plot. apply Axes_plot_store_le.
  - rewrite Axes_surface_plot. apply Axes_plot_store_le.
Qed.

Lemma run_store_le fuel cs : ∀ w w',
  final (run fuel cs w) = Some w' → store_le w w'.
Proof.
  induction cs as [|c cs IH]; intros w w'; simpl.
  - by intros [= <-].
  - unfold mbind at 1, M_bind at 1.
    pose proof (exec_store_le fuel c w) as Hstep.
    destruct (exec fuel c w) as [v w1|e w1| |]; simpl; try done.
    2:{ intros [= <-]. by apply Hstep. }
    unfold mbind, M_bind. intros Hfin. etrans; [by apply Hstep|].
    apply IH. by destruct (run fuel cs w1).
Qed.




(** ** Two plot calls in a row *)


Lemma store_le_Material w w' v x : store_le w w' → is_Material v w = Some x → is_Material v w' = Some x.
Proof.
  intros Hle. destruct x as [m mat]. intros [-> Hm]%is_Material_Some.
  destruct (Hle m _ Hm) as (o' & Ho' & ->). simpl. by rewrite Ho'.
Qed.

Lemma store_le_axes w w' self a :
  store_le w w' → heap w !! self = Some (OAxes a) →
  ∃ a', heap w' !! self = Some (OAxes a') ∧ Axes_le a a'.
Proof.
  intros Hle Ha. destruct (Hle self _ Ha) as ([| | |a'| |] & Ha' & Hle'); try done. eauto.
Qed.





(** X6. Nothing is removed, reordered or rewritten.  Along any script of
    calls, ending or raising: the axes list of a figure and the list of
    render objects of an axes only grow at their end; an axes keeps its
    figure and its properties; arrays, materials, Scatter and Surface
    objects stay as they are. *)
Theorem X6_store_append_only fuel cs w w' :
  final (run fuel cs w) = Some w' →
  (∀ l F, heap w !! l = Some (OFigure F) →
     ∃ F', heap w' !! l = Some (OFigure F') ∧ fig_axes F `prefix_of` fig_axes F') ∧
  (∀ l a, heap w !! l = Some (OAxes a) →
     ∃ a', heap w' !! l = Some (OAxes a') ∧ ax_fig a' = ax_fig a ∧
           ax_properties a' = ax_properties a ∧
           ax_renderObjects a `prefix_of` ax_renderObjects a') ∧
  (∀ l o, heap w !! l = Some o →
     match o with
     | OFigure _ | OAxes _ => True
     | _ => heap w' !! l = Some o
     end).
Proof.
  intros Hle%run_store_le. split; [|split].
  - intros l F HF. destruct (Hle l _ HF) as ([| |F'| | |] & HF' & Hobj); try done.
    exists F'. split; [done|]. by destruct Hobj as (_ & ? & _).
  - intros l a Ha. destruct (store_le_axes _ _ _ _ Hle Ha) as (a' & Ha' & ? & ? & ?).
    by exists a'.
  - intros l o Ho. destruct (Hle l _ Ho) as (o' & Ho' & Hobj).
    destruct o; try done; simpl in Hobj; by subst o'.
Qed.

Lemma str_app_nil_r (s : string) : s ++ "" = s.
Proof.
  induction s as [|c s IH]; [done|].
  change (String c (s ++ "") = String c s). by f_equal.
Qed.

Lemma store_le_render_object w w' obj t :
  store_le w w' → render_object w obj = Some t → render_object w' obj = Some t.
Proof.
  intros Hle. unfold render_object. destruct obj as [| | | | | |l]; try done.
  destruct (heap w !! l) as [[| | | |r|r]|] eqn:Hl; try done;
    destruct (Hle l _ Hl) as (o' & -> & ->); unfold RenderObject_render;
    destruct (is_Material (ro_material r) w) as [[m mat]|] eqn:HM; try done;
    by rewrite (store_le_Material _ _ _ _ Hle HM).
Qed.

Lemma Axes_render_Some w l a ts :
  heap w !! l = Some (OAxes a) →
  mapM (render_object w) (ax_renderObjects a) = Some ts →
  Axes_render w l = Some (js_axes ts (ax_properties a)).
Proof.
  intros Ha Hts. unfold Axes_render. rewrite Ha, Hts. simpl. by rewrite str_app_nil_r.
Qed.

(** X7. Draw order is kept.  In a scene built through the interface, take
    the texts [ts] that the render objects of an axes render to.  After any
    script of validated calls, [Axes.render] gives the axes template the
    same texts in the same order, followed by those of the objects added
    since, and the same properties. *)
Theorem X7_render_keeps_earlier_objects fuel cs w w' l a :
  inv w → forallb validated cs = true →
  final (run fuel cs w) = Some w' →
  heap w !! l = Some (OAxes a) →
  ∃ ts more,
    mapM (render_object w) (ax_renderObjects a) = Some ts ∧
    Axes_render w l = Some (js_axes ts (ax_properties a)) ∧
    Axes_render w' l = Some (js_axes (ts ++ more) (ax_properties a)).
Proof.
  intros Hinv Hcs Hfin Ha.
  pose proof (run_inv fuel cs w w' Hcs Hinv Hfin) as Hinv'.
  pose proof (run_store_le fuel cs w w' Hfin) as Hle.
  destruct (store_le_axes _ _ _ _ Hle Ha) as (a' & Ha' & _ & Hprop & [extra Hextra]).
  assert (∀ w0 l0 a0, inv w0 → heap w0 !! l0 = Some (OAxes a0) →
            is_Some (mapM (render_object w0) (ax_renderObjects a0))) as Hrenders.
  { intros w0 l0 a0 Hinv0 Ha0. apply mapM_is_Some, Forall_forall.
    intros obj Hobj. apply renderable_renders. by apply (Hinv0 l0 (OAxes a0)). }
  destruct (Hrenders w l a Hinv Ha) as [ts Hts].
  destruct (Hrenders w' l a' Hinv' Ha') as [ts' Hts'].
  pose proof Hts' as Hall'. rewrite Hextra in Hall'.
  apply mapM_Some, Forall2_app_inv_l in Hall' as (ts1 & more & H1 & H2 & ->).
  assert (ts1 = ts) as ->.
  { apply mapM_Some in Hts. clear -Hts H1 Hle.
    revert ts1 H1. induction Hts as [|obj t objs ts Ht _ IH]; intros ts1 H1.
    - by inversion H1.
    - inversion H1 as [|? t1 ? ts1' Ht1 Hrest]; subst.
      rewrite (store_le_render_object _ _ _ _ Hle Ht) in Ht1. injection Ht1 as <-.
      f_equal. by apply IH. }
  exists ts, more. split; [done|]. split; [by apply Axes_render_Some|].
  rewrite <- Hprop. by apply Axes_render_Some.
Qed.

(** ** References of render objects *)

Lemma store_le_owner w w' self a f F :
  store_le w w' → owner_of w self = Some (a, f, F) →
  ∃ a' F', owner_of w' self = Some (a', f, F') ∧ Axes_le a a' ∧ Figure_le false F F'.
Proof.
  intros Hle (Ha & Hf & HF)%owner_of_Some.
  destruct (store_le_axes _ _ _ _ Hle Ha) as (a' & Ha' & Hle').
  destruct (Hle f _ HF) as ([| |F'| | |] & HF' & HleF); try done.
  exists a', F'. split; [|done]. apply owner_of_Some.
  destruct Hle' as (Hfig & _). split; [done|]. split; [congruence|done].
Qed.

Lemma refs_obj_mono w w' o : store_le w w' → refs_obj w o → refs_obj w' o.
Proof.
  intros Hle.
  assert (∀ r, resolves w r → resolves w' r) as Hres.
  { intros r (a & f & F & k & b & m & mat & Hown & Hk & Hb & Hm & Hmat & Hid).
    destruct (store_le_owner _ _ _ _ _ _ Hle Hown) as (a' & F' & Hown' & _ & _ & _ & Hdata & Hdom).
    destruct (Hle m _ Hmat) as (o' & Ho' & ->).
    exists a', f, F', k, b, m, mat. repeat split; try done.
    - by eapply lookup_weaken.
    - apply elem_of_dom, Hdom, elem_of_dom. done. }
  destruct o as [| |F| |r|r]; simpl; auto.
  intros Hkeyed k m Hm. destruct (Hkeyed k m Hm) as (mat & Hmat & Hid).
  destruct (Hle m _ Hmat) as (o' & Ho' & ->). eauto.
Qed.

(** One write keeps the invariant when the object written has it. *)
Lemma refs_insert w w' l o' :
  refs_inv w → store_le w w' → heap w' = <[l := o']> (heap w) →
  refs_obj w' o' → refs_inv w'.
Proof.
  intros Hinv Hle Hheap Hobj l0 o0. rewrite Hheap.
  destruct (decide (l0 = l)) as [->|Hne].
  - rewrite lookup_insert_eq. by intros [= <-].
  - rewrite lookup_insert_ne by done. intros Ho0.
    eapply refs_obj_mono; [done|]. by eapply Hinv.
Qed.

Lemma Figure_addData_refs fuel self data w w' :
  refs_inv w → final (Figure_addData fuel self data w) = Some w' → refs_inv w'.
Proof.
  intros Hinv Hfin. pose proof (Figure_addData_store_le _ _ _ _ _ Hfin) as Hle.
  destruct (Figure_addData fuel self data w) as [v w1|e w1| |] eqn:Hrun;
    simpl in Hfin; try done; injection Hfin as ->.
  - apply Figure_addData_Return in Hrun
      as (b & F & k & _ & HF & _ & [[_ ->]|(_ & Hk & Hheap & _)]); [done|].
    eapply refs_insert; [done|done|exact Hheap|].
    apply (refs_obj_mono _ _ (OFigure F) Hle (Hinv self _ HF)).
  - by apply Figure_addData_Raise in Hrun as (_ & _ & ->).
Qed.

Lemma Figure_addMaterial_refs self m w w' :
  refs_inv w → final (Figure_addMaterial self m w) = Some w' → refs_inv w'.
Proof.
  intros Hinv Hfin. pose proof (Figure_addMaterial_store_le _ _ _ _ Hfin) as Hle.
  destruct (Figure_addMaterial self m w) as [v w1|e w1| |] eqn:Hrun;
    simpl in Hfin; try done; injection Hfin as ->.
  - apply Figure_addMaterial_Return in Hrun
      as (lm & mat & F & HM & HF & _ & [[_ ->]|[_ ->]]); [done|].
    apply is_Material_Some in HM as [_ Hlm].
    eapply refs_insert; [done|done|done|].
    pose proof (refs_obj_mono _ _ (OFigure F) Hle (Hinv self _ HF)) as Hkeyed.
    intros k m'. simpl. destruct (decide (k = mat_ID mat)) as [->|Hne].
    + rewrite lookup_insert_eq. intros [= <-]. exists mat. split; [|done].
      rewrite lookup_insert_ne by congruence. done.
    + rewrite lookup_insert_ne by done. apply Hkeyed.
  - by apply Figure_addMaterial_Raise in Hrun as (_ & _ & ->).
Qed.

Lemma Axes_plot_refs c mk fuel self vertex kwargs w w' :
  (mk = OScatter ∨ mk = OSurface) →
  refs_inv w → final (Axes_plot c mk fuel self vertex kwargs w) = Some w' → refs_inv w'.
Proof.
  intros Hmk Hinv Hfin. destruct (is_ndarray vertex w) as [b|] eqn:Hb.
  2:{ unfold Axes_plot in Hfin. rewrite Hb in Hfin. by injection Hfin as <-. }
  pose proof (Axes_plot_inv c mk fuel self vertex kwargs w (mk_is_Some _ _ Hb)) as Hinv'.
  assert (∀ a f F k w1 lm w2, staged c fuel self vertex w a f F k w1 lm w2 → refs_inv w2)
    as Hstaged.
  { intros a f F k w1 lm w2 [_ Hdata -> ->].
    assert (refs_inv w1) as Hinv1 by (eapply Figure_addData_refs; [done|by rewrite Hdata]).
    eapply (refs_insert w1); [done| |done|done].
    eapply store_le_alloc; [apply fresh_loc_None|done]. }
  destruct (Axes_plot c mk fuel self vertex kwargs w) as [v w1|e w1| |];
    simpl in Hfin; try done; injection Hfin as ->.
  2:{ destruct Hinv' as (a & f & F & k & w1 & lm & w2 & Hst & -> & _). by eapply Hstaged. }
  destruct Hinv' as (_ & a & f & F & k & w1 & lm & w2 & w3 & s & Hst & Hmat & Hs & Hheap & _).
  pose proof (Hstaged _ _ _ _ _ _ _ Hst) as Hinv2.
  assert (refs_inv w3) as Hinv3.
  { eapply Figure_addMaterial_refs; [exact Hinv2|by rewrite Hmat]. }
  destruct (staged_heap _ _ _ _ _ _ _ _ _ _ _ _ Hst)
    as (b' & F2 & _ & Hax2 & HF2 & Hown2 & Hk2 & _).
  pose proof Hmat as (m & mat & F2' & HM & HF2' & Hv & Hcase)%Figure_addMaterial_Return.
  assert (F2' = F2) as -> by congruence.
  apply is_Material_Some in HM as [Hmv Hm2].
  pose proof Hown2 as (_ & Hfig & _)%owner_of_Some.
  assert (∃ F3, heap w3 !! f = Some (OFigure F3) ∧ heap w3 !! self = Some (OAxes a) ∧
                heap w3 !! m = Some (OMaterial mat) ∧
                fig_dataDict F3 = fig_dataDict F2 ∧
                is_Some (fig_materialDict F3 !! mat_ID mat)) as (F3 & HF3 & Hax3 & Hm3 & Hd3 & Hid3).
  { destruct Hcase as [[[k' Hk'] ->]|[_ ->]].
    - exists F2. repeat split; try done.
      destruct (Hinv2 f _ HF2 k' m Hk') as (mat' & Hmat' & <-).
      assert (mat' = mat) as -> by congruence. by exists m.
    - eexists. simpl. rewrite lookup_insert_eq. split; [done|].
      rewrite !lookup_insert_ne by congruence. repeat split; try done.
      simpl. rewrite lookup_insert_eq. by eexists. }
  pose proof (fresh_loc_None w3) as Hfresh. rewrite <- Hs in Hfresh.
  assert (s ≠ self ∧ s ≠ f ∧ s ≠ m) as (Hss & Hsf & Hsm) by (repeat split; congruence).
  set (r := MkRenderObject self (VStr k) (pop_default kwargs "material" (VRef lm))) in *.
  set (w4 := set_heap (<[s := mk r]> (heap w3)) w3).
  assert (store_le w3 w4) as Hle34 by by eapply store_le_alloc.
  assert (resolves w4 r) as Hres.
  { exists a, f, F3, k, b', m, mat. simpl.
    rewrite !owner_of_Some. simpl. rewrite !lookup_insert_ne by done.
    repeat split; try done. by rewrite Hd3. }
  assert (refs_inv w4) as Hinv4.
  { eapply (refs_insert w3 w4); [done|done|done|]. by destruct Hmk as [-> | ->]. }
  eapply (refs_insert w4 w'); [done| |exact Hheap|done].
  eapply store_le_insert; [exact Hheap|].
  intros o. simpl. rewrite lookup_insert_ne by done. rewrite Hax3.
  intros [= <-]. simpl. repeat split. by apply prefix_app_r.
Qed.

Lemma exec_refs fuel c w w' :
  refs_inv w → final (exec fuel c w) = Some w' → refs_inv w'.
Proof.
  intros Hinv Hfin. pose proof (exec_store_le _ _ _ _ Hfin) as Hle. revert Hfin.
  destruct c as [self data|self m|self kwargs|self value|self value|self value
                |self data|self m|self obj|self vertex kwargs|self vertex kwargs];
    simpl.
  - by apply Figure_addData_refs.
  - by apply Figure_addMaterial_refs.
  - destruct (Figure_addAxes self kwargs w) as [v wa|e wa| |] eqn:Hrun; simpl; intros [= ->].
    2:{ by apply Figure_addAxes_no_Raise in Hrun. }
    destruct (heap w !! self) as [[| |F| | |]|] eqn:Hself;
      try by (revert Hrun; unfold Figure_addAxes, Axes_init; unfold_M; simpl;
              destruct (decide (fresh (dom (heap w)) = self)) as [<-|?];
              [rewrite lookup_insert_eq|rewrite lookup_insert_ne, Hself by done]).
    destruct (Figure_addAxes_eq self F kwargs w Hself) as (ax & A & w2 & Hrun' & Hax & _ & Hheap & _).
    rewrite Hrun in Hrun'. injection Hrun' as _ <-.
    set (w1 := set_heap (<[ax := OAxes A]> (heap w)) w).
    assert (store_le w w1) as Hle1 by by eapply store_le_alloc.
    assert (refs_inv w1) as Hinv1 by by eapply (refs_insert w w1).
    eapply (refs_insert w1 w'); [done| |exact Hheap|].
    + eapply store_le_insert; [exact Hheap|].
      intros o. simpl. rewrite lookup_insert_ne by congruence. rewrite Hself.
      intros [= <-]. simpl. repeat split; simpl; auto. by apply prefix_app_r.
    + apply (refs_obj_mono _ _ (OFigure F) Hle (Hinv self _ Hself)).
  - unfold Figure_set_ID. unfold_M.
    destruct (heap w !! self) as [[| |F| | |]|] eqn:Hself; simpl; try done.
    intros [= <-]. eapply refs_insert; [done|done|done|].
    apply (refs_obj_mono _ _ (OFigure F) Hle (Hinv self _ Hself)).
  - by intros [= <-].
  - by intros [= <-].
  - rewrite Axes_addData_eq. destruct (owner_of w self) as [[[a f] F]|]; [|done].
    by apply Figure_addData_refs.
  - rewrite Axes_addMaterial_eq. destruct (owner_of w self) as [[[a f] F]|]; [|done].
    by apply Figure_addMaterial_refs.
  - unfold Axes_addRenderObject, append_renderObject. unfold_M.
    destruct (heap w !! self) as [[| | |a| |]|] eqn:Hself; simpl; try done.
    intros [= <-]. by eapply refs_insert.
  - rewrite Axes_scatter_plot. apply Axes_plot_refs; auto.
  - rewrite Axes_surface_plot. apply Axes_plot_refs; auto.
Qed.

Lemma run_refs fuel cs : ∀ w w',
  refs_inv w → final (run fuel cs w) = Some w' → refs_inv w'.
Proof.
  induction cs as [|c cs IH]; intros w w'; simpl.
  - by intros Hinv [= <-].
  - intros Hinv. unfold mbind at 1, M_bind at 1.
    pose proof (exec_refs fuel c w) as Hstep.
    destruct (exec fuel c w) as [v w1|e w1| |]; simpl; try done.
    2:{ intros [= <-]. by apply Hstep. }
    unfold mbind, M_bind. intros Hfin. apply (IH w1); [by apply Hstep|].
    by destruct (run fuel cs w1).
Qed.

Lemma Figure_init_refs w l w' : refs_inv w → Figure_init w = Return l w' → refs_inv w'.
Proof.
  intros Hinv. unfold Figure_init. unfold_M. simpl. intros [= <- <-].
  eapply refs_insert; [done| |done|].
  - eapply store_le_alloc; [apply (fresh_loc_None w)|done].
  - intros k m. simpl. by rewrite lookup_empty.
Qed.

(** X5. Render objects refer to registered data and materials.  In a store
    where they do, they still do after any script of calls, ending or
    raising: for every Scatter and Surface object, the data ID it renders is
    a key of the data registry, and the ID of its material a key of the
    material registry, of the figure that owns its axes. *)
Theorem X5_references_resolve fuel cs w w' l r :
  refs_inv w → final (run fuel cs w) = Some w' →
  heap w' !! l = Some (OScatter r) ∨ heap w' !! l = Some (OSurface r) →
  resolves w' r.
Proof.
  intros Hinv Hfin Hl. pose proof (run_refs fuel cs w w' Hinv Hfin) as Hinv'.
  destruct Hl as [Hl|Hl]; apply (Hinv' l _ Hl).
Qed.

(** ** Construction, keywords and properties *)



(** The loop hands back the first draw that is no key of the dictionary. *)
Lemma regenerate_first_free (d : gmap string loc) h hooks j : ∀ fuel c,
  j ≤ fuel →
  (∀ i, i < j → is_Some (d !! uuid4 (c + i))) → d !! uuid4 (c + j) = None →
  regenerate fuel d (uuid4 c) (World h (S c) hooks) =
    Return (uuid4 (c + j)) (World h (S (c + j)) hooks).
Proof.
  induction j as [|j IH]; intros fuel c Hfuel Hcoll Hfree.
  - rewrite Nat.add_0_r in *. apply has_key_false in Hfree.
    destruct fuel; simpl; by rewrite Hfree.
  - destruct fuel as [|fuel]; [lia|]. simpl.
    assert (has_key d (uuid4 c) = true) as ->.
    { apply has_key_true, elem_of_dom. rewrite <- (Nat.add_0_r c). apply Hcoll. lia. }
    unfold mbind, M_bind, str_uuid4. simpl.
    replace (c + S j) with (S c + j) in * by lia.
    apply IH; [lia| |done].
    intros i Hi. replace (S c + i) with (c + S i) by lia. apply Hcoll. lia.
Qed.

(** X10. The ID of a new buffer.  For a buffer that is not registered,
    [addData] returns the first draw of the UUID source that is no key of
    the data registry: when the next [j] draws are keys and the one after
    is not, the buffer is registered under that one, [j + 1] draws are
    used, and nothing else changes. *)
Theorem X10_addData_takes_first_free_draw fuel self F b arr j w :
  heap w !! self = Some (OFigure F) → heap w !! b = Some (ONdarray arr) →
  ¬ registered (fig_dataDict F) b →
  (∀ i, i < j → is_Some (fig_dataDict F !! uuid4 (uuid_calls w + i))) →
  fig_dataDict F !! uuid4 (uuid_calls w + j) = None →
  j ≤ fuel →
  Figure_addData fuel self (VRef b) w =
    Return (VStr (uuid4 (uuid_calls w + j)))
      (World (<[self := OFigure (set_dataDict F
                 (<[uuid4 (uuid_calls w + j) := b]> (fig_dataDict F)))]> (heap w))
             (S (uuid_calls w + j)) (hook_calls w)).
Proof.
  intros Hself Hb Hnot Hcoll Hfree Hfuel.
  unfold Figure_addData. rewrite (is_ndarray_ref _ _ _ Hb).
  apply scan_None in Hnot. unfold_M. rewrite Hself, Hnot.
  by rewrite (regenerate_first_free _ _ _ j fuel (uuid_calls w) Hfuel Hcoll Hfree).
Qed.

Lemma not_registered_insert (d : gmap string loc) k m l :
  l ≠ m → ¬ registered d l → ¬ registered (<[k := m]> d) l.
Proof.
  intros Hne Hnot [k' Hk']. apply Hnot.
  destruct (decide (k' = k)) as [->|Hkk].
  - rewrite lookup_insert_eq in Hk'. congruence.
  - rewrite lookup_insert_ne in Hk' by done. by exists k'.
Qed.

Lemma Figure_addMaterial_new self m mat F w :
  heap w !! m = Some (OMaterial mat) → heap w !! self = Some (OFigure F) →
  ¬ registered (fig_materialDict F) m →
  Figure_addMaterial self (VRef m) w = Return (VRef m) (material_added self F m mat w).
Proof.
  intros Hm Hself Hnot.
  rewrite (Figure_addMaterial_eq self m mat F w); [|by apply is_Material_ref|done].
  by apply scan_None in Hnot as ->.
Qed.

(** X11. One material, two figures.  A Material registered in neither of
    two figures is accepted by both: each [addMaterial] returns it, each
    figure gets it under its ID, and its hook [addToFigure] is called once
    for each figure, in the order of the calls.  Nothing stops the second
    binding. *)
Theorem X11_material_in_two_figures f1 f2 F1 F2 m mat w :
  f1 ≠ f2 →
  heap w !! f1 = Some (OFigure F1) → heap w !! f2 = Some (OFigure F2) →
  heap w !! m = Some (OMaterial mat) →
  ¬ registered (fig_materialDict F1) m → ¬ registered (fig_materialDict F2) m →
  ∃ w1 w2,
    Figure_addMaterial f1 (VRef m) w = Return (VRef m) w1 ∧
    Figure_addMaterial f2 (VRef m) w1 = Return (VRef m) w2 ∧
    hook_calls w2 = (hook_calls w ++ [(m, f1); (m, f2)])%list ∧
    heap w2 !! f1 =
      Some (OFigure (set_materialDict F1 (<[mat_ID mat := m]> (fig_materialDict F1)))) ∧
    heap w2 !! f2 =
      Some (OFigure (set_materialDict F2 (<[mat_ID mat := m]> (fig_materialDict F2)))).
Proof.
  intros Hne Hf1 Hf2 Hm Hn1 Hn2.
  assert (m ≠ f1 ∧ m ≠ f2) as [Hm1 Hm2] by (split; congruence).
  eexists _, _. split; [by apply Figure_addMaterial_new|]. split.
  - apply (Figure_addMaterial_new f2 m mat F2); [| |done]; simpl;
      by rewrite lookup_insert_ne.
  - simpl. rewrite <- app_assoc. split; [done|].
    rewrite lookup_insert_ne, !lookup_insert_eq by done. done.
Qed.

(** X12. Two materials with one ID.  The material registry is keyed by
    [m.ID] while the scan is by identity.  So when two distinct Material
    objects have the same ID, registering the second replaces the entry of
    the first, which is then unknown to the scan: adding the first again
    calls its hook a second time and replaces the second in turn.  The
    registry never holds both. *)
Theorem X12_material_ID_clash f F m1 m2 mat1 mat2 w :
  heap w !! f = Some (OFigure F) →
  heap w !! m1 = Some (OMaterial mat1) → heap w !! m2 = Some (OMaterial mat2) →
  m1 ≠ m2 → mat_ID mat1 = mat_ID mat2 →
  ¬ registered (fig_materialDict F) m1 → ¬ registered (fig_materialDict F) m2 →
  ∃ w1 w2 w3 F2 F3,
    Figure_addMaterial f (VRef m1) w = Return (VRef m1) w1 ∧
    Figure_addMaterial f (VRef m2) w1 = Return (VRef m2) w2 ∧
    Figure_addMaterial f (VRef m1) w2 = Return (VRef m1) w3 ∧
    heap w2 !! f = Some (OFigure F2) ∧
    fig_materialDict F2 = <[mat_ID mat1 := m2]> (fig_materialDict F) ∧
    ¬ registered (fig_materialDict F2) m1 ∧
    heap w3 !! f = Some (OFigure F3) ∧
    fig_materialDict F3 = <[mat_ID mat1 := m1]> (fig_materialDict F) ∧
    ¬ registered (fig_materialDict F3) m2 ∧
    hook_calls w3 = (hook_calls w ++ [(m1, f); (m2, f); (m1, f)])%list.
Proof.
  intros Hf Hm1 Hm2 Hne Hid Hn1 Hn2.
  assert (m1 ≠ f ∧ m2 ≠ f) as [Hf1 Hf2] by (split; congruence).
  set (w1 := material_added f F m1 mat1 w).
  set (F1 := set_materialDict F (<[mat_ID mat1 := m1]> (fig_materialDict F))).
  set (w2 := material_added f F1 m2 mat2 w1).
  set (F2 := set_materialDict F1 (<[mat_ID mat2 := m2]> (fig_materialDict F1))).
  set (w3 := material_added f F2 m1 mat1 w2).
  set (F3 := set_materialDict F2 (<[mat_ID mat1 := m1]> (fig_materialDict F2))).
  assert (fig_materialDict F2 = <[mat_ID mat1 := m2]> (fig_materialDict F)) as HF2.
  { unfold F2, F1. simpl. rewrite <- Hid. by rewrite insert_insert_eq. }
  assert (fig_materialDict F3 = <[mat_ID mat1 := m1]> (fig_materialDict F)) as HF3.
  { change (fig_materialDict F3) with (<[mat_ID mat1 := m1]> (fig_materialDict F2)).
    rewrite HF2. by rewrite insert_insert_eq. }
  assert (¬ registered (fig_materialDict F1) m2) as Hn2'.
  { unfold F1. simpl. by apply not_registered_insert. }
  assert (¬ registered (fig_materialDict F2) m1) as Hn1'.
  { rewrite HF2. by apply not_registered_insert. }
  assert (heap w1 !! f = Some (OFigure F1)) as Hw1 by (simpl; by rewrite lookup_insert_eq).
  assert (heap w2 !! f = Some (OFigure F2)) as Hw2 by (simpl; by rewrite lookup_insert_eq).
  assert (heap w3 !! f = Some (OFigure F3)) as Hw3 by (simpl; by rewrite lookup_insert_eq).
  exists w1, w2, w3, F2, F3.
  split; [by apply Figure_addMaterial_new|].
  split. { apply Figure_addMaterial_new; [|done|done]. simpl. by rewrite lookup_insert_ne. }
  split. { apply Figure_addMaterial_new; [|done|done]. simpl. by rewrite !lookup_insert_ne. }
  do 3 (split; [done|]). do 2 (split; [done|]). split.
  - rewrite HF3. by apply not_registered_insert.
  - simpl. by rewrite <- !app_assoc.
Qed.

(** X13. The data property reads what [addData] wrote.  [Axes.addData] has
    the outcome of [Figure.addData] on the figure of the axes, and so has
    [Axes.addMaterial] of [Figure.addMaterial]; after [addData] returned the
    ID [k] for a buffer, the [data] property of the figure and the one of
    each of its axes give the same dictionary, which has the buffer under
    [k]. *)
Theorem X13_data_property_round_trip fuel ax a f F b arr w :
  Inj (=) (=) uuid4 → size (fig_dataDict F) ≤ fuel →
  heap w !! ax = Some (OAxes a) → ax_fig a = VRef f →
  heap w !! f = Some (OFigure F) → heap w !! b = Some (ONdarray arr) →
  ∃ k w' d,
    Axes_addData fuel ax (VRef b) w = Return (VStr k) w' ∧
    Figure_addData fuel f (VRef b) w = Return (VStr k) w' ∧
    (∀ m, Axes_addMaterial ax m w = Figure_addMaterial f m w) ∧
    Figure_get_data f w' = Return d w' ∧
    Axes_get_data ax w' = Return d w' ∧
    d !! k = Some b.
Proof.
  intros Hinj Hfuel Hax Hfig HF Hb.
  assert (owner_of w ax = Some (a, f, F)) as Hown by by apply owner_of_Some.
  destruct (Figure_addData_ok fuel f b arr F w) as (k & w' & F' & Hrun & HF' & Hscan & Hcase); auto.
  assert (heap w' !! ax = Some (OAxes a)) as Hax'.
  { destruct Hcase as [[-> _]|[Hadd _]]; [done|].
    rewrite (data_added_frame _ _ _ _ _ _ _ Hadd); [done|congruence]. }
  exists k, w', (fig_dataDict F').
  split; [by rewrite Axes_addData_eq, Hown|]. split; [done|].
  split; [intros m; by rewrite Axes_addMaterial_eq, Hown|].
  split; [unfold Figure_get_data; unfold_M; by rewrite HF'|].
  split; [|by apply scan_Some].
  unfold Axes_get_data, owner, Figure_get_data. unfold_M. rewrite Hax', Hfig.
  simpl. rewrite HF'. simpl. by rewrite HF'.
Qed.

(** ** Rendering what was added *)

Lemma mapM_snoc {A B} (g : A → option B) (l : list A) (x : A) (ks : list B) y :
  mapM g l = Some ks → g x = Some y → mapM g (l ++ [x])%list = Some (ks ++ [y])%list.
Proof.
  intros Hl Hx. apply mapM_Some. apply Forall2_app; [by apply mapM_Some|].
  by repeat constructor.
Qed.

Lemma mapM_render_le w w' objs ts :
  store_le w w' → mapM (render_object w) objs = Some ts →
  mapM (render_object w') objs = Some ts.
Proof.
  intros Hle Hts%mapM_Some. apply mapM_Some.
  eapply Forall2_impl; [exact Hts|]. intros obj t. by apply store_le_render_object.
Qed.


(** X14. [addRenderObject] takes anything.  On an Axes it returns [None]
    for every argument, appends it to the render objects and touches no
    other object; it checks nothing and removes no duplicate.  When the
    argument is a Scatter or Surface object of the store (listed already or
    not, built for this Axes or another), [Axes.render] gives its text to
    the axes template once more, after the texts of the objects listed
    before. *)
Theorem X14_addRenderObject_unchecked self a obj w :
  heap w !! self = Some (OAxes a) →
  ∃ w',
    Axes_addRenderObject self obj w = Return VNone w' ∧
    heap w' =
      <[self := OAxes (MkAxes (ax_fig a) (ax_renderObjects a ++ [obj]) (ax_properties a))]>
        (heap w) ∧
    uuid_calls w' = uuid_calls w ∧ hook_calls w' = hook_calls w ∧
    (∀ ts t, mapM (render_object w) (ax_renderObjects a) = Some ts →
       render_object w obj = Some t →
       Axes_render w' self = Some (js_axes (ts ++ [t]) (ax_properties a))).
Proof.
  intros Ha. unfold Axes_addRenderObject, append_renderObject. unfold_M. rewrite Ha.
  eexists. split; [done|]. simpl. do 3 (split; [done|]).
  intros ts t Hts Ht.
  set (w' := World _ _ _).
  assert (store_le w w') as Hle.
  { eapply store_le_insert; [done|]. intros o Ho. rewrite Ha in Ho. injection Ho as <-.
    simpl. repeat split. by apply prefix_app_r. }
  rewrite (Axes_render_Some w' self
             (MkAxes (ax_fig a) (ax_renderObjects a ++ [obj]) (ax_properties a))
             (ts ++ [t])); [done|simpl; by rewrite lookup_insert_eq|].
  simpl. apply mapM_snoc; [by eapply mapM_render_le|by eapply store_le_render_object].
Qed.


End Facts.

(** ** Facts of the concrete scene *)

Module DemoFacts.

Import Demo.
#[local] Existing Instance Demo.source.
#[local] Existing Instance Demo.templates.

Lemma tally_inj : Inj (=) (=) tally.
Proof.
  intros n. induction n as [|n IH]; intros [|m] H; try done.
  f_equal. apply IH. by apply (String.app_inj "u").
Qed.

Lemma scene_figure : heap scene !! 4 = Some (OFigure fig0).
Proof. vm_compute. reflexivity. Qed.

Lemma scene_axes : heap scene !! 5 = Some (OAxes axes0) ∧ heap scene !! 6 = Some (OAxes axes0).
Proof. vm_compute. split; reflexivity. Qed.

Lemma plotted_scene_figure : heap plotted_scene !! 4 = Some (OFigure fig2).
Proof. vm_compute. reflexivity. Qed.

Lemma plotted_scene_render :
  Figure_render plotted_scene 4 =
    Some "data;materials;figure(id);axes(scatter(uuid));axes(surface(m));".
Proof. vm_compute. reflexivity. Qed.

(** The starting store has the invariant, so the plotted scene is fit for
    a render pass by [built_scene_ok]. *)
Lemma w0_inv : inv w0.
Proof.
  intros l o H. unfold w0 in H. simpl in H.
  repeat (apply lookup_insert_Some in H as [[<- <-]|[_ H]]; [done|]).
  by rewrite lookup_empty in H.
Qed.

Lemma plotted_scene_ok : scene_ok plotted_scene fig2 = true.
Proof.
  eapply (built_scene_ok 0 ([CFigure_addAxes 4 ∅; CFigure_addAxes 4 ∅] ++ plots)
            w0 4 _ plotted_scene fig2).
  - apply w0_inv.
  - vm_compute. reflexivity.
  - reflexivity.
  - vm_compute. reflexivity.
  - vm_compute. reflexivity.
Qed.

Lemma addData_retries_on_collision :
  ∃ w', Figure_addData 1 4 (VRef 1) crowded = Return (VStr "uid") w' ∧
        uuid_calls w' = 2.
Proof. eexists. vm_compute. split; reflexivity. Qed.

Lemma addData_out_of_fuel : Figure_addData 0 4 (VRef 1) crowded = Timeout.
Proof. vm_compute. reflexivity. Qed.

Lemma w0_refs : refs_inv w0.
Proof.
  intros l o H. unfold w0 in H. simpl in H.
  repeat (apply lookup_insert_Some in H as [[<- <-]|[_ H]]; [done|]).
  by rewrite lookup_empty in H.
Qed.

Lemma created_eq : Figure_init w0 = Return 4 created.
Proof. vm_compute. reflexivity. Qed.

Lemma scene_eq : final (run 0 two_axes created) = Some scene.
Proof. vm_compute. reflexivity. Qed.

Lemma scene_inv : inv scene.
Proof.
  eapply (run_inv 0 two_axes created); [reflexivity| |apply scene_eq].
  eapply Figure_init_inv; [apply w0_inv|apply created_eq].
Qed.

Lemma scene_refs : refs_inv scene.
Proof.
  eapply (run_refs 0 two_axes created); [|apply scene_eq].
  eapply Figure_init_refs; [apply w0_refs|apply created_eq].
Qed.

Lemma plotted_eq : final (run 0 plots scene) = Some plotted_scene.
Proof. vm_compute. reflexivity. Qed.

End DemoFacts.


(** ** The theorems at the concrete scene *)

#[local] Existing Instance Demo.source.
#[local] Existing Instance Demo.templates.

Lemma C1_witness :
  ∃ id1 id2 w1 w2,
    Figure_addData 1 4 (VRef 1) Demo.scene = Return (VStr id1) w1 ∧
    Figure_addData 1 4 (VRef 1) w1 = Return (VStr id1) w1 ∧
    Figure_addData 1 4 (VRef 2) w1 = Return (VStr id2) w2 ∧
    id2 ≠ id1.
Proof.
  destruct (C1_addData_dedup_by_identity 1 4 Demo.fig0 1 2
              Demo.array123 Demo.scene)
    as (id1 & w1 & f1 & H1 & H2 & _ & _ & id2 & w2 & f2 & H3 & Hne & _).
  - apply DemoFacts.tally_inj.
  - vm_compute. lia.
  - vm_compute. reflexivity.
  - vm_compute. reflexivity.
  - vm_compute. reflexivity.
  - lia.
  - exists id1, id2, w1, w2. auto.
Defined.

Lemma C2_witness :
  ∃ w1,
    Figure_addMaterial 4 (VRef 3) Demo.scene = Return (VRef 3) w1 ∧
    Figure_addMaterial 4 (VRef 3) w1 = Return (VRef 3) w1 ∧
    (¬ registered (fig_materialDict Demo.fig0) 3 →
       hook_calls w1 = (hook_calls Demo.scene ++ [(3, 4)])%list) ∧
    (registered (fig_materialDict Demo.fig0) 3 → w1 = Demo.scene).
Proof.
  apply (C2_addMaterial_dedup_single_binding 4 Demo.fig0 3
           (MkMaterial MaterialBase "m") Demo.scene).
  - vm_compute. reflexivity.
  - vm_compute. reflexivity.
Defined.



Lemma C4_witness :
  (∃ F', heap Demo.plotted_scene !! 4 = Some (OFigure F') ∧ fig_ID F' = fig_ID Demo.fig0) ∧
  (∀ value, ∃ w2, Figure_set_ID 4 value Demo.scene = Return () w2 ∧
     heap w2 !! 4 = Some (OFigure (set_ID Demo.fig0 value))) ∧
  (∀ w0, ∃ l0 w1, Figure_init w0 = Return l0 w1 ∧
     heap w1 !! l0 = Some (OFigure (MkFigure (VStr (uuid4 (uuid_calls w0))) [] ∅ ∅))).
Proof.
  apply (C4_figure_ID_kept_unless_assigned 0 Demo.plots Demo.scene
           Demo.plotted_scene 4 Demo.fig0).
  - reflexivity.
  - vm_compute. reflexivity.
  - vm_compute. reflexivity.
Defined.

(** C4, as claimed, fails: an assignment to the [ID] property of the figure
    at 4, whose ID is "id", succeeds and the ID read afterwards is the value
    assigned. *)
Lemma C4_counterexample :
  ∃ w',
    Figure_get_ID 4 Demo.scene = Return (VStr "id") Demo.scene ∧
    exec 0 (CFigure_set_ID 4 (VStr "other")) Demo.scene = Return VNone w' ∧
    Figure_get_ID 4 w' = Return (VStr "other") w'.
Proof. eexists. vm_compute. repeat split; reflexivity. Qed.

Lemma C5_witness :
  ∃ r1 r2 pre mid post,
    Axes_render Demo.plotted_scene 5 = Some r1 ∧
    Axes_render Demo.plotted_scene 6 = Some r2 ∧
    Figure_render Demo.plotted_scene 4 = Some (pre ++ r1 ++ mid ++ r2 ++ post).
Proof.
  destruct (C5_render_order Demo.plotted_scene 4 Demo.fig2)
    as (frags & _ & _ & _ & _ & Horder).
  - vm_compute. reflexivity.
  - vm_compute. reflexivity.
  - apply (Horder 0 1 5 6); [lia|reflexivity|reflexivity].
Defined.

Lemma C6_witness :
  ∃ ids w' F',
    run 2 (addData_script 4 [1; 2]) Demo.scene = Return (VStr <$> ids) w' ∧
    length ids = 2 ∧ NoDup ids ∧
    heap w' !! 4 = Some (OFigure F') ∧
    Forall2 (λ b id, fig_dataDict F' !! id = Some b) [1; 2] ids ∧
    (∀ i b id, [1; 2] !! i = Some b → ids !! i = Some id →
       ¬ registered (fig_dataDict Demo.fig0) b → fig_dataDict Demo.fig0 !! id = None).
Proof.
  apply (C6_addData_IDs_pairwise_distinct 2 4 Demo.fig0 [1; 2] Demo.scene).
  - apply DemoFacts.tally_inj.
  - vm_compute. lia.
  - vm_compute. reflexivity.
  - repeat constructor; exists Demo.array123; vm_compute; reflexivity.
  - apply (bool_decide_unpack _). vm_compute. exact I.
Defined.

Lemma C7_witness :
  Figure_addData 0 4 (VInt 42) Demo.scene =
    Raise (TypeError "Expecting Numpy ndarray object") Demo.scene ∧
  Figure_addMaterial 4 (VStr "not a material") Demo.scene =
    Raise (TypeError "Expecting Material object") Demo.scene ∧
  Axes_scatter 0 5 (VInt 42) ∅ Demo.scene =
    Raise (TypeError "Expecting a Numpy NDArray object") Demo.scene ∧
  Axes_surface 0 5 (VInt 42) ∅ Demo.scene =
    Raise (TypeError "Expecting a Numpy NDArray object") Demo.scene.
Proof.
  apply (C7_type_rejection 0 4 (VInt 42) (VStr "not a material") ∅ Demo.scene);
    reflexivity.
Defined.

Lemma C9_witness :
  ∃ F', heap Demo.plotted_scene !! 4 = Some (OFigure F') ∧
    size (fig_dataDict Demo.fig0) ≤ size (fig_dataDict F') ∧
    size (fig_materialDict Demo.fig0) ≤ size (fig_materialDict F') ∧
    fig_dataDict Demo.fig0 ⊆ fig_dataDict F' ∧
    dom (fig_materialDict Demo.fig0) ⊆ dom (fig_materialDict F').
Proof.
  apply (C9_registries_only_grow 0 Demo.plots Demo.scene
           Demo.plotted_scene 4 Demo.fig0).
  - vm_compute. reflexivity.
  - vm_compute. reflexivity.
Defined.


(** ** The further properties at the concrete scenes *)







Lemma X5_witness : resolves Demo.plotted_scene (MkRenderObject 5 (VStr "uid") (VRef 7)).
Proof.
  apply (X5_references_resolve 0 Demo.plots Demo.scene Demo.plotted_scene 8).
  - apply DemoFacts.scene_refs.
  - apply DemoFacts.plotted_eq.
  - left. vm_compute. reflexivity.
Defined.

Lemma X6_witness :
  (∀ l F, heap Demo.scene !! l = Some (OFigure F) →
     ∃ F', heap Demo.plotted_scene !! l = Some (OFigure F') ∧
           fig_axes F `prefix_of` fig_axes F') ∧
  (∀ l a, heap Demo.scene !! l = Some (OAxes a) →
     ∃ a', heap Demo.plotted_scene !! l = Some (OAxes a') ∧ ax_fig a' = ax_fig a ∧
           ax_properties a' = ax_properties a ∧
           ax_renderObjects a `prefix_of` ax_renderObjects a') ∧
  (∀ l o, heap Demo.scene !! l = Some o →
     match o with
     | OFigure _ | OAxes _ => True
     | _ => heap Demo.plotted_scene !! l = Some o
     end).
Proof.
  apply (X6_store_append_only 0 Demo.plots Demo.scene Demo.plotted_scene).
  apply DemoFacts.plotted_eq.
Defined.

Lemma X7_witness :
  ∃ ts more,
    mapM (render_object Demo.scene) (ax_renderObjects Demo.axes0) = Some ts ∧
    Axes_render Demo.scene 5 = Some (js_axes ts (ax_properties Demo.axes0)) ∧
    Axes_render Demo.plotted_scene 5 =
      Some (js_axes (ts ++ more) (ax_properties Demo.axes0)).
Proof.
  apply (X7_render_keeps_earlier_objects 0 Demo.plots Demo.scene Demo.plotted_scene
           5 Demo.axes0).
  - apply DemoFacts.scene_inv.
  - reflexivity.
  - apply DemoFacts.plotted_eq.
  - vm_compute. reflexivity.
Defined.


Lemma X10_witness :
  Figure_addData 1 4 (VRef 1) Demo.crowded =
    Return (VStr (uuid4 (uuid_calls Demo.crowded + 1)))
      (World (<[4 := OFigure (set_dataDict (MkFigure (VStr "f") [] (<["id" := 2]> ∅) ∅)
                 (<[uuid4 (uuid_calls Demo.crowded + 1) := 1]>
                    (<["id" := 2]> ∅ : gmap string nat)))]>
                (heap Demo.crowded))
             (S (uuid_calls Demo.crowded + 1)) (hook_calls Demo.crowded)).
Proof.
  refine (X10_addData_takes_first_free_draw 1 4 (MkFigure (VStr "f") [] (<["id" := 2]> ∅) ∅)
            1 Demo.array123 1 Demo.crowded _ _ _ _ _ _).
  - vm_compute. reflexivity.
  - vm_compute. reflexivity.
  - intros [k Hk]. simpl in Hk.
    apply lookup_insert_Some in Hk as [[_ ?]|[_ Hk]]; [done|]. by rewrite lookup_empty in Hk.
  - intros i Hi. assert (i = 0) as -> by lia. vm_compute. by eexists.
  - vm_compute. reflexivity.
  - lia.
Defined.

Lemma X11_witness :
  ∃ w1 w2,
    Figure_addMaterial 4 (VRef 3) Demo.two_figures = Return (VRef 3) w1 ∧
    Figure_addMaterial 5 (VRef 3) w1 = Return (VRef 3) w2 ∧
    hook_calls w2 = (hook_calls Demo.two_figures ++ [(3, 4); (3, 5)])%list ∧
    heap w2 !! 4 =
      Some (OFigure (set_materialDict (MkFigure (VStr "f1") [] ∅ ∅) (<["m" := 3]> ∅))) ∧
    heap w2 !! 5 =
      Some (OFigure (set_materialDict (MkFigure (VStr "f2") [] ∅ ∅) (<["m" := 3]> ∅))).
Proof.
  apply (X11_material_in_two_figures 4 5 (MkFigure (VStr "f1") [] ∅ ∅)
           (MkFigure (VStr "f2") [] ∅ ∅) 3 (MkMaterial MaterialBase "m") Demo.two_figures).
  - lia.
  - vm_compute. reflexivity.
  - vm_compute. reflexivity.
  - vm_compute. reflexivity.
  - intros [k Hk]. simpl in Hk. by rewrite lookup_empty in Hk.
  - intros [k Hk]. simpl in Hk. by rewrite lookup_empty in Hk.
Defined.

Lemma X12_witness :
  ∃ w1 w2 w3 F2 F3,
    Figure_addMaterial 4 (VRef 3) Demo.clash = Return (VRef 3) w1 ∧
    Figure_addMaterial 4 (VRef 5) w1 = Return (VRef 5) w2 ∧
    Figure_addMaterial 4 (VRef 3) w2 = Return (VRef 3) w3 ∧
    heap w2 !! 4 = Some (OFigure F2) ∧
    fig_materialDict F2 = <["m" := 5]> ∅ ∧
    ¬ registered (fig_materialDict F2) 3 ∧
    heap w3 !! 4 = Some (OFigure F3) ∧
    fig_materialDict F3 = <["m" := 3]> ∅ ∧
    ¬ registered (fig_materialDict F3) 5 ∧
    hook_calls w3 = (hook_calls Demo.clash ++ [(3, 4); (5, 4); (3, 4)])%list.
Proof.
  apply (X12_material_ID_clash 4 (MkFigure (VStr "f") [] ∅ ∅) 3 5
           (MkMaterial MaterialBase "m") (MkMaterial PointMaterial "m") Demo.clash).
  - vm_compute. reflexivity.
  - vm_compute. reflexivity.
  - vm_compute. reflexivity.
  - lia.
  - reflexivity.
  - intros [k Hk]. simpl in Hk. by rewrite lookup_empty in Hk.
  - intros [k Hk]. simpl in Hk. by rewrite lookup_empty in Hk.
Defined.

Lemma X13_witness :
  ∃ k w' d,
    Axes_addData 0 5 (VRef 1) Demo.scene = Return (VStr k) w' ∧
    Figure_addData 0 4 (VRef 1) Demo.scene = Return (VStr k) w' ∧
    (∀ m, Axes_addMaterial 5 m Demo.scene = Figure_addMaterial 4 m Demo.scene) ∧
    Figure_get_data 4 w' = Return d w' ∧
    Axes_get_data 5 w' = Return d w' ∧
    d !! k = Some 1.
Proof.
  apply (X13_data_property_round_trip 0 5 Demo.axes0 4 Demo.fig0 1 Demo.array123 Demo.scene).
  - apply DemoFacts.tally_inj.
  - vm_compute. lia.
  - vm_compute. reflexivity.
  - reflexivity.
  - vm_compute. reflexivity.
  - vm_compute. reflexivity.
Defined.

Lemma X14_witness :
  ∃ w',
    Axes_addRenderObject 6 (VRef 8) Demo.plotted_scene = Return VNone w' ∧
    Axes_render w' 6 = Some (js_axes ["surface(m)"; "scatter(uuid)"]
                               (ax_properties Demo.axes0)).
Proof.
  destruct (X14_addRenderObject_unchecked 6
              (MkAxes (VRef 4) [VRef 10] (ax_properties Demo.axes0)) (VRef 8)
              Demo.plotted_scene) as (w' & Hrun & _ & _ & _ & Hrender).
  - vm_compute. reflexivity.
  - exists w'. split; [done|].
    apply (Hrender ["surface(m)"] "scatter(uuid)"); vm_compute; reflexivity.
Defined.

